(** * naytshul-back: the news backend of [index.js]

    A shallow embedding of the article and user collections, the start-up
    ingestion of the headlines feed, the identity-provider webhook and the
    query and like routes, followed by the properties the specification
    states about them.

    Conventions.
    - A JavaScript value that may be [undefined] or [null] is an [option].
    - A timestamp ([Date]) is its time value: milliseconds since the epoch,
      an integer; an Invalid Date is [None].
    - An awaited call that may throw is a computation of the monad [M]:
      it takes the state, returns the state it leaves behind and either the
      exception or the value.  A write made before a throw stays written,
      as it does in the store.
    - The behaviour of the libraries and of the runtime underneath the
      program (identifier syntax, regular expressions, date parsing, time
      zone) is the interface [Platform]; a general statement holds for
      all platforms, or says which ones it is about. *)

From Stdlib Require Import String Ascii List ZArith NArith Bool Lia.
Import ListNotations.
Local Open Scope string_scope.

(** ** JavaScript values *)

(** [if (x)] on a string that may be absent: absent and empty are falsy. *)
Definition truthy (x : option string) : bool :=
  match x with
  | Some s => negb (s =? "")
  | None => false
  end.

(** [x || null]. *)
Definition or_null (x : option string) : option string :=
  if truthy x then x else None.

(** A [mongoose.Schema.Types.ObjectId], as the 96-bit number it holds. *)
Definition ObjectId := N.

(** What can be thrown. *)
Inductive Exn :=
| TypeError                          (* a property read on undefined *)
| CastError (path : string)          (* mongoose could not cast a value *)
| ValidationError (path : string)    (* a required path has no value *)
| DuplicateKeyError (path : string)  (* E11000, a unique index refused the write *)
| RequestError (reason : string)     (* axios: the request failed *)
| QueryError (reason : string)       (* the store refused a query *)
| Error (message : string).          (* new Error(message) *)

(** ** The data model *)

(** The [source] sub-record of an article. *)
Module Source.

Record t := {
  id : option string;
  name : option string;
  country : option string
}.

End Source.

(** An item of the feed's [articles] array. *)
Module Feed.

Record article := {
  title : option string;
  description : option string;
  url : option string;
  publishedAt : option Z;
  source : Source.t;
  urlToImage : option string
}.

(** The outcome of [axios.get]. *)
Inductive response :=
| failed (e : Exn)
| data (articles : list article).

End Feed.

(** [articleSchema] and the queries the program runs on the collection.
    [title] is required and unique; [category] is always written by the
    ingestion; [likes] is an array path, which mongoose never leaves
    undefined, but whose entries may be null. *)
Module Article.

Record doc := {
  _id : ObjectId;
  title : string;
  description : option string;
  url : option string;
  publishedAt : option Z;
  source : Source.t;
  category : string;
  urlToImage : option string;
  likes : list (option ObjectId)
}.

Definition with_likes (a : doc) (l : list (option ObjectId)) : doc :=
  {| _id := _id a; title := title a; description := description a;
     url := url a; publishedAt := publishedAt a; source := source a;
     category := category a; urlToImage := urlToImage a; likes := l |}.

(** [Article.findOne({ title })].  A null title equals no stored title. *)
Definition findOne (t : option string) (coll : list doc) : option doc :=
  match t with
  | Some t => find (fun a => title a =? t) coll
  | None => None
  end.

(** The lookup of [Article.findById], once the identifier is cast. *)
Definition findById (i : ObjectId) (coll : list doc) : option doc :=
  find (fun a => (_id a =? i)%N) coll.

(** [Article.find({ category })]. *)
Definition findByCategory (c : string) (coll : list doc) : list doc :=
  filter (fun a => category a =? c) coll.

(** The write of [save()] on a loaded document whose [likes] changed:
    the stored document with that [_id] gets the new array. *)
Fixpoint updateLikes (i : ObjectId) (l : list (option ObjectId))
    (coll : list doc) : list doc :=
  match coll with
  | [] => []
  | a :: rest =>
      if (_id a =? i)%N then with_likes a l :: rest
      else a :: updateLikes i l rest
  end.

(** How many stored records carry a title. *)
Definition count_title (t : string) (coll : list doc) : nat :=
  length (filter (fun a => title a =? t) coll).

(** The unique index on [title]. *)
Definition unique_titles (coll : list doc) : Prop :=
  NoDup (map title coll).

End Article.

(** [UserSchema]: [clerkUserId] is required and unique. *)
Module User.

Record doc := {
  _id : ObjectId;
  clerkUserId : string;
  firstName : option string;
  lastName : option string;
  email : option string
}.

Definition has_id (i : string) (u : doc) : bool := clerkUserId u =? i.

Definition count_id (i : string) (coll : list doc) : nat :=
  length (filter (has_id i) coll).

(** [User.findOneAndDelete({ clerkUserId })]: the first match goes. *)
Fixpoint findOneAndDelete (i : string) (coll : list doc) : list doc :=
  match coll with
  | [] => []
  | u :: rest => if has_id i u then rest else u :: findOneAndDelete i rest
  end.

End User.

(** The database: both collections and the source of fresh identifiers. *)
Record Db := {
  articles : list Article.doc;
  users : list User.doc;
  nextId : ObjectId
}.

(** ** The platform underneath *)

(** What the program takes from mongoose, the document store and the
    JavaScript runtime, without fixing their versions. *)
Class Platform := {
  (** [ObjectId.prototype.toString]: the hexadecimal rendering. *)
  toString : ObjectId -> string;
  (** mongoose's cast of a request string to an ObjectId; [None] is a
      CastError. *)
  castObjectId : string -> option ObjectId;
  (** The matcher of [{ $regex: pattern, $options: 'i' }]; [None] when
      the store refuses the pattern. *)
  regex_i : string -> option (string -> bool);
  (** The time value of [new Date(text)]; [None] is an Invalid Date. *)
  Date_parse : string -> option Z;
  (** [LocalTZA(t, isUTC)] of ECMAScript: local time minus UTC in
      milliseconds, at the UTC instant [t] when [isUTC] and at the local
      time [t] otherwise. *)
  LocalTZA : Z -> bool -> Z
}.

(** ** Computations that read and write a state and may throw *)

Definition M (S A : Type) : Type := S -> S * (Exn + A).

Definition ret {S A} (x : A) : M S A := fun s => (s, inr x).

Definition throw {S A} (e : Exn) : M S A := fun s => (s, inl e).

Definition bind {S A B} (c : M S A) (k : A -> M S B) : M S B :=
  fun s =>
    match c s with
    | (s', inr x) => k x s'
    | (s', inl e) => (s', inl e)
    end.

(** [try { c } catch (e) { h e }]. *)
Definition try_catch {S A} (c : M S A) (h : Exn -> M S A) : M S A :=
  fun s =>
    match c s with
    | (s', inl e) => h e s'
    | r => r
    end.

Definition gets {S A} (f : S -> A) : M S A := fun s => (s, inr (f s)).

Definition modify {S} (f : S -> S) : M S unit := fun s => (f s, inr tt).

(** Reading a property of a value that may be undefined. *)
Definition defined {S A} (x : option A) : M S A :=
  match x with
  | Some v => ret v
  | None => throw TypeError
  end.

Declare Scope js_scope.
Delimit Scope js_scope with js.
Notation "x <- c ;; k" := (bind c (fun x => k))
  (at level 61, c at next level, right associativity) : js_scope.
Notation "c ;; k" := (bind c (fun _ => k))
  (at level 61, right associativity) : js_scope.
Local Open Scope js_scope.

(** [for (const x of xs) { await body(x) }]: a throw leaves the loop. *)
Fixpoint for_of {S A} (xs : list A) (body : A -> M S unit) : M S unit :=
  match xs with
  | [] => ret tt
  | x :: rest => body x ;; for_of rest body
  end.

(** ** The console and the process state *)

Inductive Line :=
| log (text : string)                      (* console.log(text) *)
| log_value (text : string) (v : option string)  (* console.log(text, v) *)
| error (text : string) (e : Exn).         (* console.error(text, e.message) *)

(** The start-up task runs on the database and the console; request
    handlers run on the database alone, their diagnostics being no part of
    any response. *)
Record World := {
  db : Db;
  console : list Line
}.

Definition console_log (text : string) : M World unit :=
  modify (fun w => {| db := db w; console := console w ++ [log text] |}).

Definition console_log_value (text : string) (v : option string)
  : M World unit :=
  modify (fun w => {| db := db w; console := console w ++ [log_value text v] |}).

Definition console_error (text : string) (e : Exn) : M World unit :=
  modify (fun w => {| db := db w; console := console w ++ [error text e] |}).

(** A database computation, run inside the process. *)
Definition on_db {A} (c : M Db A) : M World A :=
  fun w =>
    let (d, r) := c (db w) in
    ({| db := d; console := console w |}, r).

(** ** Saving new documents *)

(** mongoose's [required] validator on a String path: the value must be
    a string of positive length. *)
Definition required_ok (x : option string) : bool := truthy x.

(** [new Article({ ... }).save()] for the fields the ingestion sets.  The
    document is validated, the unique index on [title] is consulted, and
    the document is appended under a fresh [_id] with no likes. *)
Definition Article_save (category : string) (a : Feed.article)
  : M Db Article.doc :=
  fun d =>
    match Feed.title a with
    | Some t =>
        if negb (required_ok (Some t)) then (d, inl (ValidationError "title"))
        else if existsb (fun x => Article.title x =? t) (articles d)
        then (d, inl (DuplicateKeyError "title"))
        else
          let doc :=
            {| Article._id := nextId d;
               Article.title := t;
               Article.description := Feed.description a;
               Article.url := Feed.url a;
               Article.publishedAt := Feed.publishedAt a;
               Article.source := Feed.source a;
               Article.category := category;
               Article.urlToImage := or_null (Feed.urlToImage a);
               Article.likes := [] |} in
          ({| articles := articles d ++ [doc]; users := users d;
              nextId := N.succ (nextId d) |}, inr doc)
    | None => (d, inl (ValidationError "title"))
    end.

(** [new User({ clerkUserId, firstName, lastName, email }).save()]. *)
Definition User_save (clerkUserId : option string)
    (firstName lastName email : option string) : M Db User.doc :=
  fun d =>
    match clerkUserId with
    | Some i =>
        if negb (required_ok (Some i)) then
          (d, inl (ValidationError "clerkUserId"))
        else if existsb (User.has_id i) (users d)
        then (d, inl (DuplicateKeyError "clerkUserId"))
        else
          let doc :=
            {| User._id := nextId d; User.clerkUserId := i;
               User.firstName := firstName; User.lastName := lastName;
               User.email := email |} in
          ({| articles := articles d; users := users d ++ [doc];
              nextId := N.succ (nextId d) |}, inr doc)
    | None => (d, inl (ValidationError "clerkUserId"))
    end.

(** ** Ingestion of the headlines feed *)

(** The body of the loop of [fetchAndSaveArticles] (lines 61-82): look
    the title up, save the article when no record has it. *)
Definition insertIfAbsent (category : string) (article : Feed.article)
  : M World unit :=
  existingArticle <-
    on_db (gets (fun d => Article.findOne (Feed.title article) (articles d))) ;;
  match existingArticle with
  | None =>
      on_db (Article_save category article) ;;
      console_log_value "New article saved:" (Feed.title article)
  | Some _ =>
      console_log_value "Article already exists:" (Feed.title article)
  end.

(** [axios.get(apiUrl, ...)] followed by [response.data.articles]. *)
Definition axios_get (feed : string -> Feed.response) (category : string)
  : M World (list Feed.article) :=
  match feed category with
  | Feed.failed e => throw e
  | Feed.data l => ret l
  end.

Definition fetched_message (category : string) : string :=
  "Headlines for category " ++ category
    ++ " fetched and saved to the database (if new).".

Definition wrapped_message (category : string) : string :=
  "An error occurred while fetching " ++ category ++ " headlines.".

Definition fetchAndSaveArticles (feed : string -> Feed.response)
    (category : string) : M World string :=
  try_catch
    (articles <- axios_get feed category ;;
     for_of articles (insertIfAbsent category) ;;
     ret (fetched_message category))
    (fun e =>
       console_error ("Error fetching " ++ category ++ " headlines:") e ;;
       throw (Error (wrapped_message category))).

Definition categories : list string :=
  ["general"; "sports"; "technology"; "health"; "business"].

(** One turn of the loop of [fetchAllCategories]. *)
Definition fetchCategory (feed : string -> Feed.response) (category : string)
  : M World unit :=
  try_catch
    (result <- fetchAndSaveArticles feed category ;;
     console_log result)
    (fun e =>
       console_error ("Error fetching " ++ category ++ " articles:") e).

Definition fetchAllCategories (feed : string -> Feed.response)
  : M World unit :=
  for_of categories (fetchCategory feed).

(** ** Responses *)

(** An item of the [/headlines] answer: the article's own fields and the
    injected [likeCount]. *)
Record HeadlineItem := {
  article : Article.doc;
  likeCount : nat
}.

(** The JSON bodies the routes send. *)
Inductive Body :=
| success_message (success : bool) (message : string)
| success_failure (err : Exn)        (* { success: false, message: err.message } *)
| message (text : string)
| error_message (text : string)      (* { error: text } *)
| likesCount (n : nat)
| article_list (l : list Article.doc)
| headline_list (l : list HeadlineItem).

Record Response := {
  status : nat;
  json : Body
}.

(** ** The identity-provider webhook *)

Module Webhook.

Record email_address := {
  email : option string
}.

Record user_data := {
  id : option string;
  first_name : option string;
  last_name : option string;
  email_addresses : option (list email_address)
}.

Record body := {
  type : option string;
  data : option user_data
}.

End Webhook.

(** [x === 'literal'] on a value that may be absent. *)
Definition is_string (x : option string) (s : string) : bool :=
  match x with
  | Some v => v =? s
  | None => false
  end.

(** [l[0] ? l[0].email : null]. *)
Definition first_email (l : list Webhook.email_address) : option string :=
  match l with
  | e :: _ => Webhook.email e
  | [] => None
  end.

(** The filter [{ clerkUserId: i }] of the deletion; a null identifier
    equals no stored identifier. *)
Definition User_findOneAndDelete (i : option string) : M Db unit :=
  match i with
  | Some i =>
      modify (fun d => {| articles := articles d;
                          users := User.findOneAndDelete i (users d);
                          nextId := nextId d |})
  | None => ret tt
  end.

(** [POST /api/webhooks]. *)
Definition webhooks (body : Webhook.body) : M Db Response :=
  try_catch
    (if is_string (Webhook.type body) "user.created" then
       userData <- defined (Webhook.data body) ;;
       let clerkUserId := Webhook.id userData in
       let firstName := Webhook.first_name userData in
       let lastName := Webhook.last_name userData in
       email_addresses <- defined (Webhook.email_addresses userData) ;;
       let primaryEmail := first_email email_addresses in
       if negb (truthy clerkUserId) then
         ret {| status := 400;
                json := success_message false "clerkUserId is required" |}
       else
         User_save clerkUserId firstName lastName primaryEmail ;;
         ret {| status := 200;
                json := success_message true "User created successfully" |}
     else if is_string (Webhook.type body) "user.deleted" then
       data <- defined (Webhook.data body) ;;
       let deletedUserId := Webhook.id data in
       User_findOneAndDelete deletedUserId ;;
       ret {| status := 200;
              json := success_message true "User deleted successfully" |}
     else
       ret {| status := 400;
              json := success_message false "Unknown event type" |})
    (fun err => ret {| status := 500; json := success_failure err |}).

(** ** Likes *)

Section Handlers.

Context {P : Platform}.

(** [Article.findById(articleId)]: the path parameter is cast first. *)
Definition Article_findById (articleId : string) : M Db (option Article.doc) :=
  match castObjectId articleId with
  | Some i => gets (fun d => Article.findById i (articles d))
  | None => throw (CastError "_id")
  end.

(** [userId == id], as [includes] compares: a string equals an
    identifier when it is its rendering, a missing user id equals a null
    entry, and nothing else is equal. *)
Definition loosely_equal (userId : option string) (id : option ObjectId)
  : bool :=
  match userId, id with
  | Some s, Some o => toString o =? s
  | None, None => true
  | _, _ => false
  end.

(** [likes.includes(userId)]: mongoose compares the request value with
    each stored entry. *)
Definition includes (userId : option string) (likes : list (option ObjectId))
  : bool :=
  existsb (loosely_equal userId) likes.

(** [likes.push(userId)]: a string is cast to an ObjectId, a missing
    user id is stored as null. *)
Definition push (userId : option string) (likes : list (option ObjectId))
  : M Db (list (option ObjectId)) :=
  match userId with
  | Some s =>
      match castObjectId s with
      | Some o => ret (likes ++ [Some o])%list
      | None => throw (CastError "likes")
      end
  | None => ret (likes ++ [None])%list
  end.

(** [article.save()] after a change of [article.likes]. *)
Definition Article_save_likes (a : Article.doc) (l : list (option ObjectId))
  : M Db unit :=
  modify (fun d => {| articles := Article.updateLikes (Article._id a) l (articles d);
                      users := users d;
                      nextId := nextId d |}).

(** [POST /articles/:id/like]; [userId] is [req.body.userId]. *)
Definition like (articleId : string) (userId : option string)
  : M Db Response :=
  try_catch
    (found <- Article_findById articleId ;;
     match found with
     | None => ret {| status := 404; json := message "Article not found" |}
     | Some a =>
         likes <-
           (if negb (includes userId (Article.likes a)) then
              l <- push userId (Article.likes a) ;;
              Article_save_likes a l ;;
              ret l
            else ret (Article.likes a)) ;;
         ret {| status := 200; json := likesCount (length likes) |}
     end)
    (fun _ => ret {| status := 500; json := message "Failed to like article" |}).

(** [id.toString() !== userId]; the call of [toString] throws on a null
    entry. *)
Definition differs_from (userId : option string) (id : option ObjectId)
  : Exn + bool :=
  match id with
  | Some o => inr (negb (is_string userId (toString o)))
  | None => inl TypeError
  end.

(** [likes.filter((id) => id.toString() !== userId)]: the entries are
    tested in order, and a throw of the test ends the filter. *)
Fixpoint filter_likes (userId : option string) (likes : list (option ObjectId))
  : Exn + list (option ObjectId) :=
  match likes with
  | [] => inr []
  | id :: rest =>
      match differs_from userId id with
      | inl e => inl e
      | inr keep =>
          match filter_likes userId rest with
          | inl e => inl e
          | inr kept => inr (if keep then id :: kept else kept)
          end
      end
  end.

(** A result, thrown or returned. *)
Definition completed {S A} (r : Exn + A) : M S A :=
  match r with
  | inl e => throw e
  | inr x => ret x
  end.

(** [POST /articles/:id/unlike]. *)
Definition unlike (articleId : string) (userId : option string)
  : M Db Response :=
  try_catch
    (found <- Article_findById articleId ;;
     match found with
     | None => ret {| status := 404; json := message "Article not found" |}
     | Some a =>
         likes <- completed (filter_likes userId (Article.likes a)) ;;
         Article_save_likes a likes ;;
         ret {| status := 200; json := likesCount (length likes) |}
     end)
    (fun _ => ret {| status := 500; json := message "Failed to unlike article" |}).

(** ** Search *)

(** [req.query] of [GET /search]. *)
Record Query := {
  q_title : option string;
  q_country : option string;
  q_category : option string;
  q_date : option string
}.

(** The [searchCriteria] object: a pattern per text field, and the two
    bounds [$gte] and [$lt] on [publishedAt]. *)
Record Criteria := {
  c_title : option string;
  c_country : option string;
  c_category : option string;
  c_publishedAt : option (option Z * option Z)
}.

Definition msPerDay : Z := 86400000%Z.

(** [TimeClip]: a time value is at most 8.64e15 ms from the epoch;
    beyond that it is NaN. *)
Definition TimeClip (t : Z) : option Z :=
  if (Z.abs t <=? 8640000000000000)%Z then Some t else None.

(** [date.setHours(h, m, s, ms)] after ECMAScript: the time value is
    taken to local time, the day of that local time is kept and the time
    within the day replaced, and the result is taken back to UTC and
    clipped; Invalid Date stays invalid. *)
Definition setHours (date : option Z) (h m s ms : Z) : option Z :=
  match date with
  | Some t =>
      let t := (t + LocalTZA t true)%Z in
      let day := (t / msPerDay)%Z in
      let date :=
        (day * msPerDay + (h * 3600000 + m * 60000 + s * 1000 + ms))%Z in
      TimeClip (date - LocalTZA date false)
  | None => None
  end.

Definition given (x : option string) : option string :=
  if truthy x then x else None.

Definition searchCriteria (q : Query) : Criteria :=
  {| c_title := given (q_title q);
     c_country := given (q_country q);
     c_category := given (q_category q);
     c_publishedAt :=
       match given (q_date q) with
       | Some date =>
           let dateObj := Date_parse date in
           let gte := setHours dateObj 0 0 0 0 in
           let lt := setHours gte 23 59 59 999 in
           Some (gte, lt)
       | None => None
       end |}.

(** A [$regex] condition on a text field; a document without the field
    does not match. *)
Definition text_filter (pattern : option string)
    (field : Article.doc -> option string) : Exn + (Article.doc -> bool) :=
  match pattern with
  | None => inr (fun _ => true)
  | Some p =>
      match regex_i p with
      | Some m =>
          inr (fun a => match field a with Some s => m s | None => false end)
      | None => inl (QueryError "$regex")
      end
  end.

(** The [$gte]/[$lt] condition on [publishedAt]; an Invalid Date bound is
    refused by the cast. *)
Definition date_filter (range : option (option Z * option Z))
  : Exn + (Article.doc -> bool) :=
  match range with
  | None => inr (fun _ => true)
  | Some (Some gte, Some lt) =>
      inr (fun a =>
             match Article.publishedAt a with
             | Some p => (gte <=? p)%Z && (p <? lt)%Z
             | None => false
             end)
  | Some _ => inl (CastError "publishedAt")
  end.

Definition both (f g : Exn + (Article.doc -> bool))
  : Exn + (Article.doc -> bool) :=
  match f, g with
  | inr f, inr g => inr (fun a => f a && g a)
  | inl e, _ => inl e
  | _, inl e => inl e
  end.

(** The conditions of a criteria object are all to hold. *)
Definition compile (c : Criteria) : Exn + (Article.doc -> bool) :=
  both (text_filter (c_title c) (fun a => Some (Article.title a)))
    (both (text_filter (c_country c)
             (fun a => Source.country (Article.source a)))
       (both (text_filter (c_category c) (fun a => Some (Article.category a)))
          (date_filter (c_publishedAt c)))).

(** [Article.find(searchCriteria)]. *)
Definition Article_find (c : Criteria) : M Db (list Article.doc) :=
  match compile c with
  | inr keep => gets (fun d => filter keep (articles d))
  | inl e => throw e
  end.

(** [GET /search]. *)
Definition search (q : Query) : M Db Response :=
  let criteria := searchCriteria q in
  try_catch
    (searchResults <- Article_find criteria ;;
     if (length searchResults =? 0)%nat then
       ret {| status := 404;
              json := message "No articles found matching your query" |}
     else ret {| status := 200; json := article_list searchResults |})
    (fun _ =>
       ret {| status := 500;
              json := message "An error occurred while searching for articles" |}).

End Handlers.

(** ** Category routes *)

(** [article.likes ? article.likes.length : 0]. *)
Definition likeCount_of (likes : option (list (option ObjectId))) : nat :=
  match likes with
  | Some l => length l
  | None => 0
  end.

(** [Article.find({ category })] inside a route. *)
Definition Article_find_category (category : string)
  : M Db (list Article.doc) :=
  gets (fun d => Article.findByCategory category (articles d)).

(** [GET /headlines]. *)
Definition headlines : M Db Response :=
  try_catch
    (articles <- Article_find_category "general" ;;
     let response :=
       map (fun a => {| article := a;
                        likeCount := likeCount_of (Some (Article.likes a)) |})
           articles in
     ret {| status := 200; json := headline_list response |})
    (fun _ => ret {| status := 500;
                     json := error_message "Failed to fetch headlines" |}).

(** [GET /sports], [/health], [/business] and [/technology] differ in the
    category alone; the failure text is the same in the four. *)
Definition fixed_route (category : string) : M Db Response :=
  try_catch
    (sportsArticles <- Article_find_category category ;;
     ret {| status := 200; json := article_list sportsArticles |})
    (fun _ => ret {| status := 500;
                     json := error_message "Failed to fetch sports articles" |}).

Definition sports : M Db Response := fixed_route "sports".
Definition health : M Db Response := fixed_route "health".
Definition business : M Db Response := fixed_route "business".
Definition technology : M Db Response := fixed_route "technology".

(** [GET /categories/:category]. *)
Definition categories_route (category : string) : M Db Response :=
  try_catch
    (articles <- Article_find_category category ;;
     ret {| status := 200; json := article_list articles |})
    (fun _ => ret {| status := 500;
                     json := error_message
                               ("Failed to fetch " ++ category ++ " articles") |}).

(** The category-fetch routes, by path. *)
Inductive CategoryRoute :=
| GET_headlines
| GET_sports
| GET_health
| GET_business
| GET_technology
| GET_categories (category : string).

Definition route_category (r : CategoryRoute) : string :=
  match r with
  | GET_headlines => "general"
  | GET_sports => "sports"
  | GET_health => "health"
  | GET_business => "business"
  | GET_technology => "technology"
  | GET_categories c => c
  end.

Definition serve (r : CategoryRoute) : M Db Response :=
  match r with
  | GET_headlines => headlines
  | GET_sports => sports
  | GET_health => health
  | GET_business => business
  | GET_technology => technology
  | GET_categories c => categories_route c
  end.

(** ** A platform for worked examples *)

(** The pieces below follow the documented behaviour on the inputs they
    accept and refuse the rest: identifiers are 24 hexadecimal digits,
    patterns are literal text, dates are in the date-only form. *)
Module Sample.

Definition hex_digit (n : N) : ascii :=
  nth (N.to_nat n) (list_ascii_of_string "0123456789abcdef") "0"%char.

(** [width] hexadecimal digits, most significant first, in lower case. *)
Fixpoint hex_render (width : nat) (n : N) : string :=
  match width with
  | O => ""
  | S w => hex_render w (n / 16) ++ String (hex_digit (n mod 16)) ""
  end.

Definition hex_value (c : ascii) : option N :=
  let k := N_of_ascii c in
  if (48 <=? k)%N && (k <=? 57)%N then Some (k - 48)%N
  else if (97 <=? k)%N && (k <=? 102)%N then Some (k - 87)%N
  else if (65 <=? k)%N && (k <=? 70)%N then Some (k - 55)%N
  else None.

Fixpoint hex_parse (s : string) (acc : N) : option N :=
  match s with
  | "" => Some acc
  | String c rest =>
      match hex_value c with
      | Some v => hex_parse rest (acc * 16 + v)%N
      | None => None
      end
  end.

Definition hex_toString (o : ObjectId) : string := hex_render 24 o.

Definition hex_cast (s : string) : option ObjectId :=
  if (String.length s =? 24)%nat then hex_parse s 0%N else None.

Definition lower (c : ascii) : ascii :=
  let k := N_of_ascii c in
  if (65 <=? k)%N && (k <=? 90)%N then ascii_of_N (k + 32) else c.

Fixpoint lowercase (s : string) : string :=
  match s with
  | "" => ""
  | String c rest => String (lower c) (lowercase rest)
  end.

Fixpoint contains (p s : string) : bool :=
  String.prefix p s ||
  match s with
  | "" => false
  | String _ rest => contains p rest
  end.

Definition literal_char (c : ascii) : bool :=
  let k := N_of_ascii c in
  ((48 <=? k)%N && (k <=? 57)%N) || ((65 <=? k)%N && (k <=? 90)%N)
  || ((97 <=? k)%N && (k <=? 122)%N) || (k =? 32)%N.

(** A pattern of letters, digits and spaces matches the texts that
    contain it, whatever the case. *)
Definition literal_regex_i (p : string) : option (string -> bool) :=
  if forallb literal_char (list_ascii_of_string p)
  then Some (fun s => contains (lowercase p) (lowercase s))
  else None.

Definition digit (c : ascii) : option Z :=
  let k := N_of_ascii c in
  if (48 <=? k)%N && (k <=? 57)%N then Some (Z.of_N (k - 48)) else None.

Definition leap (y : Z) : bool :=
  ((y mod 4 =? 0) && negb (y mod 100 =? 0) || (y mod 400 =? 0))%Z.

Definition days_in_month (y m : Z) : Z :=
  (if m =? 2 then (if leap y then 29 else 28)
   else if (m =? 4) || (m =? 6) || (m =? 9) || (m =? 11) then 30
   else 31)%Z.

(** Days from 1970-01-01 to the civil date [y]-[m]-[d]. *)
Definition days_from_civil (y m d : Z) : Z :=
  (let y' := if m <=? 2 then y - 1 else y in
   let era := y' / 400 in
   let yoe := y' - era * 400 in
   let mp := (m + 9) mod 12 in
   let doy := (153 * mp + 2) / 5 + d - 1 in
   let doe := yoe * 365 + yoe / 4 - yoe / 100 + doy in
   era * 146097 + doe - 719468)%Z.

(** [Date.UTC(y, m - 1, d, hh, mm, ss, ms)]. *)
Definition Date_UTC (y m d hh mm ss ms : Z) : Z :=
  (days_from_civil y m d * 86400000
   + hh * 3600000 + mm * 60000 + ss * 1000 + ms)%Z.

(** [new Date("YYYY-MM-DD")]: the date-only form is read as midnight
    UTC. *)
Definition date_only_parse (s : string) : option Z :=
  match list_ascii_of_string s with
  | [y1; y2; y3; y4; "-"%char; m1; m2; "-"%char; d1; d2] =>
      match digit y1, digit y2, digit y3, digit y4,
            digit m1, digit m2, digit d1, digit d2 with
      | Some a, Some b, Some c, Some e, Some f, Some g, Some h, Some i =>
          (let y := a * 1000 + b * 100 + c * 10 + e in
           let m := f * 10 + g in
           let d := h * 10 + i in
           if (1 <=? m) && (m <=? 12) && (1 <=? d) && (d <=? days_in_month y m)
           then Some (Date_UTC y m d 0 0 0 0)
           else None)%Z
      | _, _, _, _, _, _, _, _ => None
      end
  | _ => None
  end.

(** The platform of a server whose clock is always [hours] ahead of
    UTC. *)
Definition platform (hours : Z) : Platform :=
  {| toString := hex_toString;
     castObjectId := hex_cast;
     regex_i := literal_regex_i;
     Date_parse := date_only_parse;
     LocalTZA := fun _ _ => (hours * 3600000)%Z |}.

Definition no_source : Source.t :=
  {| Source.id := None; Source.name := None; Source.country := None |}.

(** A feed item with a title and a publication time and nothing else. *)
Definition item (title : option string) (publishedAt : option Z)
  : Feed.article :=
  {| Feed.title := title; Feed.description := None; Feed.url := None;
     Feed.publishedAt := publishedAt; Feed.source := no_source;
     Feed.urlToImage := None |}.

(** A stored article, liked by the users with the given identifiers. *)
Definition stored (i : ObjectId) (title category : string)
    (publishedAt : option Z) (likes : list ObjectId) : Article.doc :=
  {| Article._id := i; Article.title := title; Article.description := None;
     Article.url := None; Article.publishedAt := publishedAt;
     Article.source := no_source; Article.category := category;
     Article.urlToImage := None; Article.likes := map Some likes |}.

Definition database (l : list Article.doc) : Db :=
  {| articles := l; users := []; nextId := 1000%N |}.

Definition empty : Db := database [].

Definition world (d : Db) : World := {| db := d; console := [] |}.

(** A query by date alone. *)
Definition on_date (date : string) : Query :=
  {| q_title := None; q_country := None; q_category := None;
     q_date := Some date |}.

(** A database of one article, published at the given instant. *)
Definition published (at_ : Z) : Db :=
  database [stored 1%N "Dzongkhag news" "general" (Some at_) []].

(** One article, liked by the user with identifier 7. *)
Definition liked : Db :=
  database [stored 1%N "Dzongkhag news" "general" None [7%N]].

Definition article1 : string := "000000000000000000000001".
Definition user7 : string := "000000000000000000000007".
Definition user9 : string := "000000000000000000000009".

(** A feed that answers for sports and is out of reach otherwise. *)
Definition feed (category : string) : Feed.response :=
  if category =? "sports"
  then Feed.data [item (Some "Archery final") None]
  else Feed.failed (RequestError "timeout").

(** A [user.created] event of the identity provider. *)
Definition user_created (id : option string)
    (emails : option (list Webhook.email_address)) : Webhook.body :=
  {| Webhook.type := Some "user.created";
     Webhook.data :=
       Some {| Webhook.id := id;
               Webhook.first_name := Some "A";
               Webhook.last_name := Some "B";
               Webhook.email_addresses := emails |} |}.

(** A [user.deleted] event. *)
Definition user_deleted (id : option string) : Webhook.body :=
  {| Webhook.type := Some "user.deleted";
     Webhook.data :=
       Some {| Webhook.id := id;
               Webhook.first_name := None;
               Webhook.last_name := None;
               Webhook.email_addresses := None |} |}.

(** A feed whose second item has no title. *)
Definition broken_feed (category : string) : Feed.response :=
  Feed.data [item (Some "Archery final") None;
             item None None;
             item (Some "Tsechu dates") None].

End Sample.

(** * Notions of the specification *)

(** A title is stored. *)
Definition stores (w : World) (t : string) : Prop :=
  In t (map Article.title (articles (db w))).

(** The schema accepts the article: its title is a non-empty string. *)
Definition schema_accepts (a : Feed.article) : Prop :=
  required_ok (Feed.title a) = true.

(** The state after the loop of [fetchAllCategories] has gone through a
    list of categories, each turn starting where the previous one ended. *)
Definition after_categories (feed : string -> Feed.response)
    (cs : list string) (w : World) : World :=
  fold_left (fun w c => fst (fetchCategory feed c w)) cs w.

(** "Like followed by unlike with the same user id returns the article
    to its pre-like like count", for all existing articles and all user
    ids, as the specification words it. *)
Definition like_unlike_restores_count (P : Platform) : Prop :=
  forall (articleId userId : string) (d d1 d2 : Db) (i : ObjectId)
         (a : Article.doc) (r1 : Response) (n : nat),
    castObjectId articleId = Some i ->
    Article.findById i (articles d) = Some a ->
    like articleId (Some userId) d = (d1, inr r1) ->
    unlike articleId (Some userId) d1
    = (d2, inr {| status := 200; json := likesCount n |}) ->
    n = length (Article.likes a).


(** A parameter provides a criterion when it is present and not empty. *)
Definition provided (x : option string) : option string :=
  match x with
  | Some (String c rest) => Some (String c rest)
  | _ => None
  end.

(** The time values of JavaScript. *)
Definition is_time_value (t : Z) : Prop :=
  (-8640000000000000 <= t <= 8640000000000000)%Z.

(** The first instant of the day an instant falls on, on a clock that is
    [off] ms ahead of UTC. *)
Definition day_start (off t : Z) : Z :=
  ((t + off) / 86400000 * 86400000 - off)%Z.

(** A server whose clock is ahead of UTC by the same [off] ms at all
    times. *)
Definition fixed_zone (P : Platform) (off : Z) : Prop :=
  forall t isUTC, LocalTZA t isUTC = off.

(** The answers of [GET /search] to a list of results. *)
Definition search_answer (found : list Article.doc) : Response :=
  match found with
  | [] => {| status := 404;
             json := message "No articles found matching your query" |}
  | _ :: _ => {| status := 200; json := article_list found |}
  end.

(** [Kept wanted l l']: [l'] is [l] without the articles that are not
    wanted, the others once each and in the order of [l]. *)
Inductive Kept (wanted : Article.doc -> Prop)
  : list Article.doc -> list Article.doc -> Prop :=
| Kept_nil : Kept wanted [] []
| Kept_keep a l l' :
    wanted a -> Kept wanted l l' -> Kept wanted (a :: l) (a :: l')
| Kept_drop a l l' :
    ~ wanted a -> Kept wanted l l' -> Kept wanted (a :: l) l'.

Section SearchNotions.

Context {P : Platform}.

(** A pattern matches a field: the store accepts the pattern and the
    field is a text the pattern matches. *)
Definition pattern_matches (pattern : string) (field : option string)
  : Prop :=
  exists m s, regex_i pattern = Some m /\ field = Some s /\ m s = true.

(** An article meets the text criteria of a query: each of the title,
    country and category patterns the query provides matches the
    article's field. *)
Definition meets_text_criteria (q : Query) (a : Article.doc) : Prop :=
  (forall p, provided (q_title q) = Some p ->
             pattern_matches p (Some (Article.title a))) /\
  (forall p, provided (q_country q) = Some p ->
             pattern_matches p (Source.country (Article.source a))) /\
  (forall p, provided (q_category q) = Some p ->
             pattern_matches p (Some (Article.category a))).

(** A pattern a query provides. *)
Definition provides_pattern (q : Query) (p : string) : Prop :=
  provided (q_title q) = Some p \/ provided (q_country q) = Some p \/
  provided (q_category q) = Some p.

(** ** What the compiled criteria test *)

(** The test of the two bounds the route derives from a date. *)
Definition bounds_test (date : string) (a : Article.doc) : Prop :=
  exists gte lt p,
    setHours (Date_parse date) 0 0 0 0 = Some gte /\
    setHours (Some gte) 23 59 59 999 = Some lt /\
    Article.publishedAt a = Some p /\
    (gte <= p < lt)%Z.

(** The tests of all the conditions [searchCriteria] holds. *)
Definition passes_filters (q : Query) (a : Article.doc) : Prop :=
  (forall p, given (q_title q) = Some p ->
             pattern_matches p (Some (Article.title a))) /\
  (forall p, given (q_country q) = Some p ->
             pattern_matches p (Source.country (Article.source a))) /\
  (forall p, given (q_category q) = Some p ->
             pattern_matches p (Some (Article.category a))) /\
  (forall date, given (q_date q) = Some date -> bounds_test date a).

(** The conditions [searchCriteria] holds can all be cast and run. *)
Definition compiles (q : Query) : Prop :=
  (forall p, given (q_title q) = Some p -> regex_i p <> None) /\
  (forall p, given (q_country q) = Some p -> regex_i p <> None) /\
  (forall p, given (q_category q) = Some p -> regex_i p <> None) /\
  (forall date, given (q_date q) = Some date ->
                exists gte lt,
                  setHours (Date_parse date) 0 0 0 0 = Some gte /\
                  setHours (Some gte) 23 59 59 999 = Some lt).

End SearchNotions.

(** ** Further notions *)

(** What a turn of the ingestion for a category adds: an article of that
    category, not liked by anyone, under a non-empty title. *)
Definition ingested_under (c : string) (doc : Article.doc) : Prop :=
  Article.category doc = c /\ Article.likes doc = [] /\
  Article.title doc <> "".

(** The unique index on [clerkUserId]. *)
Definition unique_clerk_ids (coll : list User.doc) : Prop :=
  NoDup (map User.clerkUserId coll).

(** No article is liked twice under one rendering of an identifier, or
    holds two null likes. *)
Definition likes_distinct {P : Platform} (d : Db) : Prop :=
  forall a, In a (articles d) ->
            NoDup (map (option_map toString) (Article.likes a)).

(** The query without its empty parameters. *)
Definition without_empty (q : Query) : Query :=
  let drop (x : option string) :=
    match x with
    | Some "" => None
    | _ => x
    end in
  {| q_title := drop (q_title q);
     q_country := drop (q_country q);
     q_category := drop (q_category q);
     q_date := drop (q_date q) |}.

(** [q'] asks for nothing [q] does not ask for. *)
Definition asks_less (q' q : Query) : Prop :=
  (given (q_title q') = None \/ given (q_title q') = given (q_title q)) /\
  (given (q_country q') = None
   \/ given (q_country q') = given (q_country q)) /\
  (given (q_category q') = None
   \/ given (q_category q') = given (q_category q)) /\
  (given (q_date q') = None \/ given (q_date q') = given (q_date q)).

(** Two articles that differ in their likes at most. *)
Definition same_but_likes (a a' : Article.doc) : Prop :=
  Article._id a' = Article._id a /\
  Article.title a' = Article.title a /\
  Article.description a' = Article.description a /\
  Article.url a' = Article.url a /\
  Article.publishedAt a' = Article.publishedAt a /\
  Article.source a' = Article.source a /\
  Article.category a' = Article.category a /\
  Article.urlToImage a' = Article.urlToImage a.

(** Two databases that differ in likes at most: the same articles but
    for their likes, one by one in the same order, the same users and the
    same source of identifiers. *)
Definition differ_in_likes_only (d d' : Db) : Prop :=
  Forall2 same_but_likes (articles d) (articles d') /\
  users d' = users d /\
  nextId d' = nextId d.

(** * Properties *)

(** ** Lists and collections *)

Lemma find_none_existsb {A} (f : A -> bool) (l : list A) :
  find f l = None -> existsb f l = false.
Proof.
  induction l as [|x l IH]; simpl; [reflexivity|].
  destruct (f x); [discriminate | exact IH].
Qed.

Lemma find_none_filter {A} (f : A -> bool) (l : list A) :
  find f l = None -> filter f l = [].
Proof.
  induction l as [|x l IH]; simpl; [reflexivity|].
  destruct (f x); [discriminate | exact IH].
Qed.

Lemma existsb_false_filter {A} (f : A -> bool) (l : list A) :
  existsb f l = false -> filter f l = [].
Proof.
  induction l as [|x l IH]; simpl; [reflexivity|].
  destruct (f x); simpl; [discriminate | exact IH].
Qed.

Lemma find_some_title t coll x :
  find (fun a => Article.title a =? t) coll = Some x ->
  In t (map Article.title coll).
Proof.
  intros H. apply find_some in H. destruct H as [Hin Heq].
  apply String.eqb_eq in Heq. subst t. now apply in_map.
Qed.

Lemma in_titles_find t coll :
  In t (map Article.title coll) ->
  exists x, find (fun a => Article.title a =? t) coll = Some x.
Proof.
  induction coll as [|a coll IH]; simpl; [contradiction|].
  intros [H | H].
  - subst t. rewrite String.eqb_refl. now exists a.
  - destruct (Article.title a =? t); [now exists a | now apply IH].
Qed.

Lemma count_title_app t l1 l2 :
  Article.count_title t (l1 ++ l2)
  = Article.count_title t l1 + Article.count_title t l2.
Proof.
  unfold Article.count_title. now rewrite filter_app, length_app.
Qed.

Lemma count_title_absent t coll :
  ~ In t (map Article.title coll) -> Article.count_title t coll = 0.
Proof.
  unfold Article.count_title.
  induction coll as [|a coll IH]; simpl; [reflexivity|].
  intros H. destruct (String.eqb_spec (Article.title a) t) as [E | _].
  - exfalso. apply H. now left.
  - apply IH. intros Hin. apply H. now right.
Qed.

(** Under the unique index a stored title counts once. *)
Lemma count_title_unique t coll :
  Article.unique_titles coll -> In t (map Article.title coll) ->
  Article.count_title t coll = 1.
Proof.
  unfold Article.unique_titles.
  induction coll as [|a coll IH]; simpl; [contradiction|].
  intros Hnd Hin. inversion Hnd as [|? ? Hnotin Hnd']; subst.
  change (Article.count_title t (a :: coll))
    with (Article.count_title t ([a] ++ coll)).
  rewrite count_title_app.
  destruct Hin as [E | Hin].
  - subst t. rewrite (count_title_absent _ _ Hnotin).
    unfold Article.count_title. simpl. now rewrite String.eqb_refl.
  - rewrite (IH Hnd' Hin).
    rewrite count_title_absent; [reflexivity|].
    simpl. intros [E | []]. subst t. contradiction.
Qed.

(** ** C1: ingestion never stores a title twice *)

(** The attempt for a title some record has: nothing is written, the
    console says so. *)
Lemma insertIfAbsent_existing category a w x :
  Article.findOne (Feed.title a) (articles (db w)) = Some x ->
  insertIfAbsent category a w
  = ({| db := db w;
        console := console w
                   ++ [log_value "Article already exists:" (Feed.title a)] |},
     inr tt).
Proof.
  intros H. unfold insertIfAbsent, bind, on_db, gets. simpl. rewrite H.
  reflexivity.
Qed.

(** The attempt for a new, non-empty title: one record is appended, with
    the requested category and no likes. *)
Lemma insertIfAbsent_new category a w t :
  Feed.title a = Some t -> t <> "" ->
  Article.findOne (Some t) (articles (db w)) = None ->
  insertIfAbsent category a w
  = ({| db := {| articles :=
                   articles (db w)
                   ++ [ {| Article._id := nextId (db w);
                           Article.title := t;
                           Article.description := Feed.description a;
                           Article.url := Feed.url a;
                           Article.publishedAt := Feed.publishedAt a;
                           Article.source := Feed.source a;
                           Article.category := category;
                           Article.urlToImage := or_null (Feed.urlToImage a);
                           Article.likes := [] |} ];
                 users := users (db w);
                 nextId := N.succ (nextId (db w)) |};
        console := console w ++ [log_value "New article saved:" (Some t)] |},
     inr tt).
Proof.
  intros Ht Hne Hnone.
  unfold insertIfAbsent, bind, on_db, gets. simpl. rewrite Ht, Hnone.
  unfold Article_save. rewrite Ht. simpl.
  apply String.eqb_neq in Hne. rewrite Hne. simpl.
  simpl in Hnone. rewrite (find_none_existsb _ _ Hnone).
  reflexivity.
Qed.

(** The attempt for a title the schema refuses: the save throws, nothing
    is written. *)
Lemma insertIfAbsent_refused category a w :
  required_ok (Feed.title a) = false ->
  Article.findOne (Feed.title a) (articles (db w)) = None ->
  insertIfAbsent category a w = (w, inl (ValidationError "title")).
Proof.
  intros Hreq Hnone.
  unfold insertIfAbsent, bind, on_db, gets. simpl. rewrite Hnone.
  unfold Article_save.
  destruct (Feed.title a) as [t|]; simpl in *.
  - rewrite Hreq. simpl. now destruct w.
  - now destruct w.
Qed.

(** Whatever the article, the records already stored stay as they are. *)
Lemma insertIfAbsent_appends category a w :
  exists new,
    articles (db (fst (insertIfAbsent category a w)))
    = (articles (db w) ++ new)%list /\
    users (db (fst (insertIfAbsent category a w))) = users (db w).
Proof.
  destruct (Article.findOne (Feed.title a) (articles (db w))) as [x|] eqn:F.
  - rewrite (insertIfAbsent_existing category a w x F). simpl.
    exists []. now rewrite app_nil_r.
  - destruct (required_ok (Feed.title a)) eqn:R.
    + destruct (Feed.title a) as [t|] eqn:Ht; [|discriminate].
      assert (t <> "") as Hne.
      { simpl in R. intros E. subst t. discriminate. }
      rewrite (insertIfAbsent_new category a w t Ht Hne F). simpl.
      eexists. split; reflexivity.
    + rewrite (insertIfAbsent_refused category a w R F). simpl.
      exists []. now rewrite app_nil_r.
Qed.

(** The unique index is an invariant of the ingestion. *)
Lemma insertIfAbsent_unique_titles category a w :
  Article.unique_titles (articles (db w)) ->
  Article.unique_titles (articles (db (fst (insertIfAbsent category a w)))).
Proof.
  intros U.
  destruct (Article.findOne (Feed.title a) (articles (db w))) as [x|] eqn:F.
  - now rewrite (insertIfAbsent_existing category a w x F).
  - destruct (required_ok (Feed.title a)) eqn:R.
    + destruct (Feed.title a) as [t|] eqn:Ht; [|discriminate].
      assert (t <> "") as Hne.
      { simpl in R. intros E. subst t. discriminate. }
      rewrite (insertIfAbsent_new category a w t Ht Hne F). simpl.
      unfold Article.unique_titles in *. rewrite map_app. simpl.
      apply NoDup_rev in U. rewrite <- (rev_involutive (_ ++ _)).
      apply NoDup_rev. rewrite rev_app_distr. simpl.
      constructor; [|exact U].
      rewrite <- in_rev. intros Hin.
      destruct (in_titles_find t _ Hin) as [y Hy].
      simpl in F. congruence.
    + now rewrite (insertIfAbsent_refused category a w R F).
Qed.

(** C1. [insertIfAbsent] is dedup-on-title.  An attempt for a title that
    some stored record has is a no-op on the database: no record is added
    and none is modified.  And for a title the schema accepts (a non-empty
    string), two attempts with that title, made on a store that respects
    the unique index, both return and leave exactly one stored record with
    that title; the second attempt writes nothing. *)
Theorem insertIfAbsent_dedup_on_title :
  forall (category category' : string) (a a' : Feed.article) (w : World)
         (t : string),
    Feed.title a = Some t ->
    Feed.title a' = Some t ->
    (In t (map Article.title (articles (db w))) ->
     insertIfAbsent category a w
     = ({| db := db w;
           console := console w
                      ++ [log_value "Article already exists:" (Some t)] |},
        inr tt)) /\
    (t <> "" ->
     Article.unique_titles (articles (db w)) ->
     exists w1 w2,
       insertIfAbsent category a w = (w1, inr tt) /\
       insertIfAbsent category' a' w1 = (w2, inr tt) /\
       db w2 = db w1 /\
       Article.count_title t (articles (db w2)) = 1).
Proof.
  intros category category' a a' w t Ha Ha'. split.
  - intros Hin. destruct (in_titles_find t _ Hin) as [x Hx].
    rewrite <- Ha. apply (insertIfAbsent_existing category a w x).
    now rewrite Ha.
  - intros Hne U.
    destruct (Article.findOne (Some t) (articles (db w))) as [x|] eqn:F.
    + (* the title is stored: both attempts are skipped *)
      assert (Article.findOne (Feed.title a) (articles (db w)) = Some x) as F1
        by now rewrite Ha.
      pose proof (insertIfAbsent_existing category a w x F1) as E1.
      eexists. eexists. split; [exact E1|]. split.
      * apply (insertIfAbsent_existing category' a' _ x). simpl.
        now rewrite Ha'.
      * simpl. split; [reflexivity|].
        apply count_title_unique; [exact U|].
        now apply (find_some_title t _ x).
    + (* the title is new: the first attempt stores it, the second skips *)
      pose proof (insertIfAbsent_new category a w t Ha Hne F) as E1.
      assert (~ In t (map Article.title (articles (db w)))) as Hnotin.
      { intros Hin. destruct (in_titles_find t _ Hin) as [y Hy].
        simpl in F. congruence. }
      eexists. eexists. split; [exact E1|].
      match type of E1 with _ = (?x, _) => set (w1 := x) end.
      assert (In t (map Article.title (articles (db w1)))) as Hin1.
      { simpl. rewrite map_app. apply in_or_app. right. simpl. now left. }
      destruct (in_titles_find t _ Hin1) as [y Hy].
      split.
      * apply (insertIfAbsent_existing category' a' w1 y).
        now rewrite Ha'.
      * split; [reflexivity|].
        simpl. rewrite count_title_app, (count_title_absent _ _ Hnotin).
        unfold Article.count_title. simpl. now rewrite String.eqb_refl.
Qed.

Lemma insertIfAbsent_dedup_on_title_witness :
  let a := Sample.item (Some "Dzongkhag news") None in
  let w := Sample.world
             (Sample.database
                [Sample.stored 1%N "Dzongkhag news" "general" None []]) in
  insertIfAbsent "general" a w
  = ({| db := db w;
        console := [log_value "Article already exists:"
                      (Some "Dzongkhag news")] |}, inr tt) /\
  exists w1 w2,
    insertIfAbsent "general" a w = (w1, inr tt) /\
    insertIfAbsent "sports" a w1 = (w2, inr tt) /\
    db w2 = db w1 /\
    Article.count_title "Dzongkhag news" (articles (db w2)) = 1.
Proof.
  intros a w.
  destruct (insertIfAbsent_dedup_on_title "general" "sports" a a w
              "Dzongkhag news" eq_refl eq_refl) as [H1 H2].
  split.
  - apply H1. simpl. now left.
  - apply H2.
    + discriminate.
    + unfold Article.unique_titles. simpl.
      constructor; [intros [] | constructor].
Defined.

(** An empty title never reaches the store: the schema's [required]
    refuses it, and the throw ends the category's ingestion. *)
Example insertIfAbsent_empty_title :
  insertIfAbsent "general" (Sample.item (Some "") None)
    (Sample.world Sample.empty)
  = (Sample.world Sample.empty, inl (ValidationError "title")).
Proof. reflexivity. Qed.

(** ** C7: a failing category does not stop the others *)

Lemma insertIfAbsent_keeps category a w t :
  stores w t -> stores (fst (insertIfAbsent category a w)) t.
Proof.
  unfold stores. intros H.
  destruct (insertIfAbsent_appends category a w) as [new [E _]].
  rewrite E, map_app. apply in_or_app. now left.
Qed.

Lemma insertIfAbsent_accepted category a w :
  schema_accepts a ->
  exists w',
    insertIfAbsent category a w = (w', inr tt) /\
    forall t, Feed.title a = Some t -> stores w' t.
Proof.
  unfold schema_accepts, stores. intros R.
  destruct (Feed.title a) as [t|] eqn:Ht; [|discriminate].
  assert (t <> "") as Hne.
  { simpl in R. intros E. subst t. discriminate. }
  destruct (Article.findOne (Some t) (articles (db w))) as [x|] eqn:F.
  - eexists. split.
    + apply (insertIfAbsent_existing category a w x). now rewrite Ht.
    + intros t' E. injection E as <-. simpl.
      now apply (find_some_title t _ x).
  - eexists. split.
    + apply (insertIfAbsent_new category a w t Ht Hne F).
    + intros t' E. injection E as <-. simpl.
      rewrite map_app. apply in_or_app. right. simpl. now left.
Qed.

(** The loop over a feed: stored titles stay stored. *)
Lemma for_of_insert_keeps category l :
  forall w t, stores w t ->
              stores (fst (for_of l (insertIfAbsent category) w)) t.
Proof.
  induction l as [|a l IH]; intros w t H; simpl; [exact H|].
  unfold bind.
  pose proof (insertIfAbsent_keeps category a w t H) as K.
  destruct (insertIfAbsent category a w) as [w1 [e|[]]]; simpl in *.
  - exact K.
  - now apply IH.
Qed.

(** The loop over a feed the schema accepts: it returns, and every
    title of the feed is stored afterwards. *)
Lemma for_of_insert_accepted category l :
  Forall schema_accepts l ->
  forall w, exists w',
    for_of l (insertIfAbsent category) w = (w', inr tt) /\
    (forall t, stores w t -> stores w' t) /\
    (forall a t, In a l -> Feed.title a = Some t -> stores w' t).
Proof.
  induction 1 as [|a l Ha Hl IH]; intros w.
  - exists w. simpl. unfold ret. repeat split; auto. intros a t [].
  - destruct (insertIfAbsent_accepted category a w Ha) as [w1 [E1 S1]].
    destruct (IH w1) as [w2 [E2 [K2 S2]]].
    exists w2. simpl. unfold bind. rewrite E1. split; [exact E2|]. split.
    + intros t Ht. apply K2.
      pose proof (insertIfAbsent_keeps category a w t Ht) as K.
      now rewrite E1 in K.
    + intros b t [-> | Hb] Hbt.
      * apply K2. now apply S1.
      * now apply (S2 b).
Qed.

Lemma fetchAndSaveArticles_keeps feed category w t :
  stores w t -> stores (fst (fetchAndSaveArticles feed category w)) t.
Proof.
  intros H. unfold fetchAndSaveArticles, try_catch, bind, axios_get.
  destruct (feed category) as [e|l]; simpl; [exact H|].
  pose proof (for_of_insert_keeps category l w t H) as K.
  destruct (for_of l (insertIfAbsent category) w) as [w1 [e|[]]];
    simpl in *; exact K.
Qed.

(** A turn of the start-up loop never throws. *)
Lemma fetchCategory_returns feed category w :
  snd (fetchCategory feed category w) = inr tt.
Proof.
  unfold fetchCategory, try_catch, bind.
  destruct (fetchAndSaveArticles feed category w) as [w1 [e|m]];
    reflexivity.
Qed.

Lemma fetchCategory_keeps feed category w t :
  stores w t -> stores (fst (fetchCategory feed category w)) t.
Proof.
  intros H. unfold fetchCategory, try_catch, bind.
  pose proof (fetchAndSaveArticles_keeps feed category w t H) as K.
  destruct (fetchAndSaveArticles feed category w) as [w1 [e|m]];
    simpl in *; exact K.
Qed.

(** A turn for a category whose fetch fails: the database is untouched,
    the failure is reported with its cause, wrapped in an error that names
    the category, and that error is caught and reported in turn. *)
Lemma fetchCategory_failed feed category w e :
  feed category = Feed.failed e ->
  fetchCategory feed category w
  = ({| db := db w;
        console :=
          (console w
           ++ [error ("Error fetching " ++ category ++ " headlines:") e])
          ++ [error ("Error fetching " ++ category ++ " articles:")
                (Error (wrapped_message category))] |},
     inr tt).
Proof.
  intros H.
  unfold fetchCategory, fetchAndSaveArticles, try_catch, bind, axios_get.
  rewrite H. reflexivity.
Qed.

(** A turn for a category whose feed the schema accepts: every title of
    the feed is stored afterwards. *)
Lemma fetchCategory_accepted feed category w l :
  feed category = Feed.data l -> Forall schema_accepts l ->
  forall a t, In a l -> Feed.title a = Some t ->
              stores (fst (fetchCategory feed category w)) t.
Proof.
  intros H Hl a t Ha Ht.
  destruct (for_of_insert_accepted category l Hl w) as [w1 [E [_ S]]].
  unfold fetchCategory, fetchAndSaveArticles, try_catch, bind, axios_get.
  rewrite H. unfold ret at 1. rewrite E. simpl.
  now apply (S a).
Qed.

Lemma for_of_fetchCategory feed cs :
  forall w, for_of cs (fetchCategory feed) w
            = (after_categories feed cs w, inr tt).
Proof.
  induction cs as [|c cs IH]; intros w; simpl; [reflexivity|].
  unfold bind.
  pose proof (fetchCategory_returns feed c w) as R.
  destruct (fetchCategory feed c w) as [w1 r]; simpl in *. subst r.
  apply IH.
Qed.

Lemma after_categories_keeps feed cs :
  forall w t, stores w t -> stores (after_categories feed cs w) t.
Proof.
  induction cs as [|c cs IH]; intros w t H; simpl; [exact H|].
  apply IH. now apply fetchCategory_keeps.
Qed.

Lemma after_categories_accepted feed cs :
  forall w c l,
    In c cs -> feed c = Feed.data l -> Forall schema_accepts l ->
    forall a t, In a l -> Feed.title a = Some t ->
                stores (after_categories feed cs w) t.
Proof.
  induction cs as [|c0 cs IH]; intros w c l Hc Hf Hl a t Ha Ht;
    simpl in *; [contradiction|].
  destruct Hc as [-> | Hc].
  - apply after_categories_keeps.
    now apply (fetchCategory_accepted feed c w l Hf Hl a).
  - now apply (IH _ c l Hc Hf Hl a).
Qed.

(** C7. Ingestion isolates failures by category.  The start-up task takes
    the five turns in the fixed order general, sports, technology, health,
    business, each from the state the previous one left, and returns
    without throwing.  A turn whose fetch fails leaves the database as it
    was, and the wrapped error naming the category is caught and reported.
    So whatever the other categories do, a category whose feed the schema
    accepts has every title of its feed stored at the end. *)
Theorem fetchAllCategories_isolates_failures :
  forall (feed : string -> Feed.response) (w : World),
    fetchAllCategories feed w
    = (fst (fetchCategory feed "business"
         (fst (fetchCategory feed "health"
            (fst (fetchCategory feed "technology"
               (fst (fetchCategory feed "sports"
                  (fst (fetchCategory feed "general" w))))))))),
       inr tt) /\
    (forall c w0 e,
        feed c = Feed.failed e ->
        fetchCategory feed c w0
        = ({| db := db w0;
              console :=
                (console w0
                 ++ [error ("Error fetching " ++ c ++ " headlines:") e])
                ++ [error ("Error fetching " ++ c ++ " articles:")
                      (Error ("An error occurred while fetching " ++ c
                              ++ " headlines."))] |},
           inr tt)) /\
    (forall c l,
        In c categories -> feed c = Feed.data l ->
        Forall schema_accepts l ->
        forall a t, In a l -> Feed.title a = Some t ->
                    stores (fst (fetchAllCategories feed w)) t).
Proof.
  intros feed w. split; [|split].
  - unfold fetchAllCategories. now rewrite for_of_fetchCategory.
  - intros c w0 e H. now apply fetchCategory_failed.
  - intros c l Hc Hf Hl a t Ha Ht.
    unfold fetchAllCategories. rewrite for_of_fetchCategory. simpl fst.
    now apply (after_categories_accepted feed categories w c l Hc Hf Hl a).
Qed.

Lemma fetchAllCategories_isolates_failures_witness :
  fetchCategory Sample.feed "general" (Sample.world Sample.empty)
  = ({| db := Sample.empty;
        console :=
          [error "Error fetching general headlines:" (RequestError "timeout");
           error "Error fetching general articles:"
             (Error "An error occurred while fetching general headlines.")] |},
     inr tt) /\
  stores (fst (fetchAllCategories Sample.feed (Sample.world Sample.empty)))
    "Archery final".
Proof.
  destruct (fetchAllCategories_isolates_failures Sample.feed
              (Sample.world Sample.empty)) as [_ [H2 H3]].
  split.
  - apply (H2 "general" (Sample.world Sample.empty) (RequestError "timeout")).
    reflexivity.
  - apply (H3 "sports" [Sample.item (Some "Archery final") None])
      with (a := Sample.item (Some "Archery final") None).
    + simpl. tauto.
    + reflexivity.
    + constructor; [reflexivity | constructor].
    + now left.
    + reflexivity.
Defined.

(** ** C6 and C8: the user webhook *)

Lemma count_id_absent i coll :
  existsb (User.has_id i) coll = false -> User.count_id i coll = 0.
Proof.
  intros H. unfold User.count_id. now rewrite (existsb_false_filter _ _ H).
Qed.

(** The unique index of the user collection refuses a second document
    with a stored identifier. *)
Lemma User_save_conflict i firstName lastName email d :
  i <> "" -> existsb (User.has_id i) (users d) = true ->
  User_save (Some i) firstName lastName email d
  = (d, inl (DuplicateKeyError "clerkUserId")).
Proof.
  intros Hne Hex. unfold User_save. simpl.
  apply String.eqb_neq in Hne. rewrite Hne, Hex. reflexivity.
Qed.

(** A [user.created] event with an address list and a fresh, non-empty
    identifier: one user is appended and the answer is 200. *)
Lemma webhooks_created body d u l i :
  is_string (Webhook.type body) "user.created" = true ->
  Webhook.data body = Some u ->
  Webhook.email_addresses u = Some l ->
  Webhook.id u = Some i -> i <> "" ->
  existsb (User.has_id i) (users d) = false ->
  webhooks body d
  = ({| articles := articles d;
        users := users d
                 ++ [ {| User._id := nextId d;
                         User.clerkUserId := i;
                         User.firstName := Webhook.first_name u;
                         User.lastName := Webhook.last_name u;
                         User.email := first_email l |} ];
        nextId := N.succ (nextId d) |},
     inr {| status := 200;
            json := success_message true "User created successfully" |}).
Proof.
  intros Ht Hd Hl Hi Hne Hex.
  unfold webhooks, try_catch, bind, defined. rewrite Ht, Hd. simpl.
  rewrite Hl. simpl. rewrite Hi. simpl.
  apply String.eqb_neq in Hne. rewrite Hne. simpl.
  rewrite Hex. reflexivity.
Qed.

(** A [user.created] event for a stored identifier: the answer is 500 and
    nothing is written. *)
Lemma webhooks_created_again body d u i :
  is_string (Webhook.type body) "user.created" = true ->
  Webhook.data body = Some u ->
  Webhook.id u = Some i -> i <> "" ->
  existsb (User.has_id i) (users d) = true ->
  exists e,
    webhooks body d = (d, inr {| status := 500; json := success_failure e |}) /\
    (Webhook.email_addresses u <> None -> e = DuplicateKeyError "clerkUserId").
Proof.
  intros Ht Hd Hi Hne Hex.
  unfold webhooks, try_catch, bind, defined. rewrite Ht, Hd. simpl.
  destruct (Webhook.email_addresses u) as [l|]; simpl.
  - rewrite Hi. simpl.
    apply String.eqb_neq in Hne. rewrite Hne. simpl. rewrite Hex.
    eexists. split; [reflexivity | reflexivity].
  - eexists. split; [reflexivity | intros H; now elim H].
Qed.

(** What a 200 answer to a [user.created] event tells. *)
Lemma webhooks_created_inv body d d1 r :
  is_string (Webhook.type body) "user.created" = true ->
  webhooks body d = (d1, inr r) -> status r = 200 ->
  exists u l i,
    Webhook.data body = Some u /\
    Webhook.email_addresses u = Some l /\
    Webhook.id u = Some i /\ i <> "" /\
    existsb (User.has_id i) (users d) = false /\
    users d1
    = (users d
       ++ [ {| User._id := nextId d;
               User.clerkUserId := i;
               User.firstName := Webhook.first_name u;
               User.lastName := Webhook.last_name u;
               User.email := first_email l |} ])%list.
Proof.
  intros Ht H S.
  unfold webhooks, try_catch, bind, defined in H. rewrite Ht in H.
  destruct (Webhook.data body) as [u|]; simpl in H;
    [|injection H as <- <-; discriminate].
  destruct (Webhook.email_addresses u) as [l|] eqn:Hl; simpl in H;
    [|injection H as <- <-; discriminate].
  destruct (Webhook.id u) as [i|] eqn:Hi; simpl in H;
    [|injection H as <- <-; discriminate].
  destruct (String.eqb_spec i "") as [E | Hne]; simpl in H;
    [injection H as <- <-; discriminate|].
  destruct (existsb (User.has_id i) (users d)) eqn:Hex; simpl in H;
    [injection H as <- <-; discriminate|].
  injection H as <- <-.
  exists u, l, i. repeat split; auto.
Qed.

(** C6. A second [user.created] event for an external id is rejected.
    Once an event for the id has been answered with 200, exactly one user
    has that id; saving another user with it fails with the duplicate-key
    error of the unique index (the Conflict of the specification); and any
    later [user.created] event with the same id is answered with 500 and
    leaves the database as it was, so that one user keeps the id. *)
Theorem user_created_twice_is_rejected :
  forall (body1 body2 : Webhook.body) (d d1 : Db) (r1 : Response)
         (u1 u2 : Webhook.user_data) (i : string),
    is_string (Webhook.type body1) "user.created" = true ->
    Webhook.data body1 = Some u1 ->
    Webhook.id u1 = Some i ->
    webhooks body1 d = (d1, inr r1) ->
    status r1 = 200 ->
    is_string (Webhook.type body2) "user.created" = true ->
    Webhook.data body2 = Some u2 ->
    Webhook.id u2 = Some i ->
    User.count_id i (users d1) = 1 /\
    (forall firstName lastName email,
        User_save (Some i) firstName lastName email d1
        = (d1, inl (DuplicateKeyError "clerkUserId"))) /\
    exists e,
      webhooks body2 d1
      = (d1, inr {| status := 500; json := success_failure e |}) /\
      (Webhook.email_addresses u2 <> None ->
       e = DuplicateKeyError "clerkUserId").
Proof.
  intros body1 body2 d d1 r1 u1 u2 i T1 D1 I1 W1 S1 T2 D2 I2.
  destruct (webhooks_created_inv body1 d d1 r1 T1 W1 S1)
    as [u [l [j [Hd [Hl [Hj [Hne [Hex Hu]]]]]]]].
  assert (u = u1) by congruence. subst u.
  assert (j = i) by congruence. subst j.
  assert (existsb (User.has_id i) (users d1) = true) as Hex1.
  { rewrite Hu, existsb_app. simpl. unfold User.has_id at 2. simpl.
    rewrite String.eqb_refl. now rewrite orb_true_r. }
  split; [|split].
  - unfold User.count_id. rewrite Hu, filter_app, length_app.
    rewrite (existsb_false_filter _ _ Hex). simpl.
    unfold User.has_id. simpl. now rewrite String.eqb_refl.
  - intros firstName lastName email.
    now apply User_save_conflict.
  - now apply (webhooks_created_again body2 d1 u2 i).
Qed.

Lemma user_created_twice_is_rejected_witness :
  let body :=
    Sample.user_created (Some "u1")
      (Some [ {| Webhook.email := Some "a@b.com" |} ]) in
  let d1 := fst (webhooks body Sample.empty) in
  User.count_id "u1" (users d1) = 1 /\
  webhooks body d1
  = (d1, inr {| status := 500;
                json := success_failure (DuplicateKeyError "clerkUserId") |}).
Proof.
  intros body d1.
  destruct (user_created_twice_is_rejected body body Sample.empty d1
              {| status := 200;
                 json := success_message true "User created successfully" |}
              {| Webhook.id := Some "u1";
                 Webhook.first_name := Some "A";
                 Webhook.last_name := Some "B";
                 Webhook.email_addresses :=
                   Some [ {| Webhook.email := Some "a@b.com" |} ] |}
              {| Webhook.id := Some "u1";
                 Webhook.first_name := Some "A";
                 Webhook.last_name := Some "B";
                 Webhook.email_addresses :=
                   Some [ {| Webhook.email := Some "a@b.com" |} ] |}
              "u1" eq_refl eq_refl eq_refl eq_refl eq_refl eq_refl eq_refl
              eq_refl) as [C [_ [e [W E]]]].
  split; [exact C|].
  rewrite W. rewrite E; [reflexivity | discriminate].
Defined.

(** C8. The user a [user.created] event creates has the first address of
    the payload's list as email, and no email when the list is empty; an
    empty list does not keep the user from being created.  (The event is
    one that creates a user: its id is a non-empty string no user has.) *)
Theorem user_created_takes_first_email :
  forall (body : Webhook.body) (d : Db) (u : Webhook.user_data)
         (l : list Webhook.email_address) (i : string),
    is_string (Webhook.type body) "user.created" = true ->
    Webhook.data body = Some u ->
    Webhook.email_addresses u = Some l ->
    Webhook.id u = Some i ->
    i <> "" ->
    existsb (User.has_id i) (users d) = false ->
    exists d' user,
      webhooks body d
      = (d', inr {| status := 200;
                    json := success_message true "User created successfully" |}) /\
      users d' = (users d ++ [user])%list /\
      User.clerkUserId user = i /\
      User.email user
      = match l with
        | first :: _ => Webhook.email first
        | [] => None
        end.
Proof.
  intros body d u l i Ht Hd Hl Hi Hne Hex.
  eexists. eexists. split.
  - apply (webhooks_created body d u l i Ht Hd Hl Hi Hne Hex).
  - simpl. repeat split.
Qed.

Lemma user_created_takes_first_email_witness :
  exists d' user,
    webhooks (Sample.user_created (Some "u1") (Some [])) Sample.empty
    = (d', inr {| status := 200;
                  json := success_message true "User created successfully" |}) /\
    users d' = [user] /\
    User.clerkUserId user = "u1" /\
    User.email user = None.
Proof.
  apply (user_created_takes_first_email
           (Sample.user_created (Some "u1") (Some [])) Sample.empty
           {| Webhook.id := Some "u1";
              Webhook.first_name := Some "A";
              Webhook.last_name := Some "B";
              Webhook.email_addresses := Some [] |}
           [] "u1" eq_refl eq_refl eq_refl eq_refl).
  - discriminate.
  - reflexivity.
Defined.

(** With addresses in the payload the first one is kept. *)
Example user_created_first_of_two :
  map User.email
    (users (fst (webhooks
                   (Sample.user_created (Some "u1")
                      (Some [ {| Webhook.email := Some "a@b.com" |};
                              {| Webhook.email := Some "c@d.org" |} ]))
                   Sample.empty)))
  = [Some "a@b.com"].
Proof. reflexivity. Qed.

(** A payload without the address list at all is answered with 500: the
    read of its first element throws before anything is saved. *)
Example user_created_without_list :
  webhooks (Sample.user_created (Some "u1") None) Sample.empty
  = (Sample.empty, inr {| status := 500; json := success_failure TypeError |}).
Proof. reflexivity. Qed.

(** ** C4 and C5: like and unlike *)


Lemma findById_id i coll a :
  Article.findById i coll = Some a -> Article._id a = i.
Proof.
  intros H. apply find_some in H. destruct H as [_ H].
  now apply N.eqb_eq in H.
Qed.

(** After the save, the lookup returns the document with its new likes. *)
Lemma findById_updateLikes i l coll a :
  Article.findById i coll = Some a ->
  Article.findById i (Article.updateLikes i l coll)
  = Some (Article.with_likes a l).
Proof.
  unfold Article.findById.
  induction coll as [|x coll IH]; simpl; [discriminate|].
  destruct (Article._id x =? i)%N eqn:E; simpl.
  - intros H. injection H as <-. now rewrite E.
  - intros H. rewrite E. now apply IH.
Qed.

(** Saving the likes a document had before a change undoes the change. *)
Lemma updateLikes_restore i l coll a :
  Article.findById i coll = Some a ->
  Article.updateLikes i (Article.likes a) (Article.updateLikes i l coll)
  = coll.
Proof.
  unfold Article.findById.
  induction coll as [|x coll IH]; simpl; [discriminate|].
  destruct (Article._id x =? i)%N eqn:E; simpl.
  - intros H. injection H as <-. rewrite E.
    f_equal. now destruct x.
  - intros H. rewrite E. f_equal. now apply IH.
Qed.

Lemma updateLikes_same i coll a :
  Article.findById i coll = Some a ->
  Article.updateLikes i (Article.likes a) coll = coll.
Proof.
  unfold Article.findById.
  induction coll as [|x coll IH]; simpl; [discriminate|].
  destruct (Article._id x =? i)%N eqn:E; simpl.
  - intros H. injection H as <-. f_equal. now destruct x.
  - intros H. f_equal. now apply IH.
Qed.

Lemma Db_eta d :
  {| articles := articles d; users := users d; nextId := nextId d |} = d.
Proof. now destruct d. Qed.

Section Likes.

Context {P : Platform}.

(** The test of the filter of [unlike], on an identifier. *)
Lemma differs_from_id userId o :
  differs_from userId (Some o) = inr (negb (loosely_equal userId (Some o))).
Proof.
  unfold differs_from, loosely_equal, is_string.
  destruct userId as [s|]; [|reflexivity].
  now rewrite String.eqb_sym.
Qed.

(** On likes without a null entry the filter of [unlike] returns, having
    taken out the entries equal to the user id. *)
Lemma filter_likes_identifiers userId likes :
  ~ In None likes ->
  filter_likes userId likes
  = inr (filter (fun id => negb (loosely_equal userId id)) likes).
Proof.
  induction likes as [|[o|] likes IH]; intros H; simpl in *.
  - reflexivity.
  - rewrite IH by tauto.
    unfold is_string. destruct userId as [s|]; simpl.
    + rewrite String.eqb_sym. reflexivity.
    + reflexivity.
  - exfalso. apply H. now left.
Qed.

(** A null entry makes the filter of [unlike] throw. *)
Lemma filter_likes_null userId likes :
  In None likes -> filter_likes userId likes = inl TypeError.
Proof.
  induction likes as [|[o|] likes IH]; simpl; intros H.
  - contradiction.
  - destruct H as [H | H]; [discriminate|].
    now rewrite (IH H).
  - reflexivity.
Qed.

(** The filter of [unlike] keeps a list that does not include the user. *)
Lemma filter_not_included userId likes :
  includes userId likes = false ->
  filter (fun id => negb (loosely_equal userId id)) likes = likes.
Proof.
  unfold includes.
  induction likes as [|o likes IH]; simpl; [reflexivity|].
  destruct (loosely_equal userId o); simpl; [discriminate|].
  intros H. f_equal. now apply IH.
Qed.

Lemma includes_app userId l1 l2 :
  includes userId (l1 ++ l2) = includes userId l1 || includes userId l2.
Proof. unfold includes. apply existsb_app. Qed.


(** The likes do not include a user id that is the rendering of none of
    the identifiers they hold. *)
Lemma includes_stranger userId likes :
  (forall o, In (Some o) likes -> toString o <> userId) ->
  includes (Some userId) likes = false.
Proof.
  intros H. unfold includes.
  destruct (existsb (loosely_equal (Some userId)) likes) eqn:E;
    [|reflexivity].
  apply existsb_exists in E. destruct E as [[o|] [Hin Heq]];
    [|discriminate].
  simpl in Heq. apply String.eqb_eq in Heq. now elim (H o Hin).
Qed.

(** [like] for a user the article's likes include: nothing is written. *)
Lemma like_included articleId userId d i a :
  castObjectId articleId = Some i ->
  Article.findById i (articles d) = Some a ->
  includes userId (Article.likes a) = true ->
  like articleId userId d
  = (d, inr {| status := 200;
               json := likesCount (length (Article.likes a)) |}).
Proof.
  intros Hc Hf Hin.
  unfold like, try_catch, bind, Article_findById. rewrite Hc.
  unfold gets. rewrite Hf, Hin. reflexivity.
Qed.

(** [like] for a new user whose id is an identifier: it is appended. *)
Lemma like_appends articleId userId d i a o :
  castObjectId articleId = Some i ->
  Article.findById i (articles d) = Some a ->
  includes (Some userId) (Article.likes a) = false ->
  castObjectId userId = Some o ->
  like articleId (Some userId) d
  = ({| articles :=
          Article.updateLikes i (Article.likes a ++ [Some o]) (articles d);
        users := users d;
        nextId := nextId d |},
     inr {| status := 200;
            json := likesCount (length (Article.likes a ++ [Some o])) |}).
Proof.
  intros Hc Hf Hin Ho.
  unfold like, try_catch, bind, Article_findById. rewrite Hc.
  unfold gets. rewrite Hf, Hin. simpl. rewrite Ho.
  simpl. now rewrite (findById_id i _ a Hf).
Qed.

(** [like] without a user id, on likes without a null entry: a null
    entry is appended. *)
Lemma like_appends_null articleId d i a :
  castObjectId articleId = Some i ->
  Article.findById i (articles d) = Some a ->
  includes None (Article.likes a) = false ->
  like articleId None d
  = ({| articles :=
          Article.updateLikes i (Article.likes a ++ [None]) (articles d);
        users := users d;
        nextId := nextId d |},
     inr {| status := 200;
            json := likesCount (length (Article.likes a ++ [None])) |}).
Proof.
  intros Hc Hf Hin.
  unfold like, try_catch, bind, Article_findById. rewrite Hc.
  unfold gets. rewrite Hf, Hin. simpl.
  now rewrite (findById_id i _ a Hf).
Qed.

(** [like] for a user id that is no identifier: the push throws. *)
Lemma like_refused articleId userId d i a :
  castObjectId articleId = Some i ->
  Article.findById i (articles d) = Some a ->
  includes (Some userId) (Article.likes a) = false ->
  castObjectId userId = None ->
  like articleId (Some userId) d
  = (d, inr {| status := 500; json := message "Failed to like article" |}).
Proof.
  intros Hc Hf Hin Ho.
  unfold like, try_catch, bind, Article_findById. rewrite Hc.
  unfold gets. rewrite Hf, Hin. simpl. rewrite Ho.
  reflexivity.
Qed.

(** [unlike] on likes without a null entry: the entries equal to the
    user id are filtered out. *)
Lemma unlike_filters articleId userId d i a :
  castObjectId articleId = Some i ->
  Article.findById i (articles d) = Some a ->
  ~ In None (Article.likes a) ->
  unlike articleId userId d
  = ({| articles :=
          Article.updateLikes i
            (filter (fun id => negb (loosely_equal userId id))
               (Article.likes a))
            (articles d);
        users := users d;
        nextId := nextId d |},
     inr {| status := 200;
            json :=
              likesCount
                (length (filter (fun id => negb (loosely_equal userId id))
                           (Article.likes a))) |}).
Proof.
  intros Hc Hf Hn.
  unfold unlike, try_catch, bind, Article_findById. rewrite Hc.
  unfold gets. rewrite Hf, (filter_likes_identifiers _ _ Hn). simpl.
  now rewrite (findById_id i _ a Hf).
Qed.

(** [unlike] on likes with a null entry: the filter throws, nothing is
    written. *)
Lemma unlike_null articleId userId d i a :
  castObjectId articleId = Some i ->
  Article.findById i (articles d) = Some a ->
  In None (Article.likes a) ->
  unlike articleId userId d
  = (d, inr {| status := 500; json := message "Failed to unlike article" |}).
Proof.
  intros Hc Hf Hn.
  unfold unlike, try_catch, bind, Article_findById. rewrite Hc.
  unfold gets. rewrite Hf, (filter_likes_null _ _ Hn). reflexivity.
Qed.

End Likes.




(** A first like by a user whose id is the rendering of the identifier it
    is cast to makes the likes include the user; the second call is then
    the idempotent one. *)
Lemma like_repeated (P : Platform) articleId userId d i a o :
  castObjectId articleId = Some i ->
  Article.findById i (articles d) = Some a ->
  castObjectId userId = Some o -> toString o = userId ->
  exists d1 n,
    like articleId (Some userId) d
    = (d1, inr {| status := 200; json := likesCount n |}) /\
    like articleId (Some userId) d1
    = (d1, inr {| status := 200; json := likesCount n |}).
Proof.
  intros Hc Hf Ho Hs.
  destruct (includes (Some userId) (Article.likes a)) eqn:Hin.
  - pose proof (like_included articleId (Some userId) d i a Hc Hf Hin) as E.
    eexists. eexists. split; exact E.
  - pose proof (like_appends articleId userId d i a o Hc Hf Hin Ho) as E.
    eexists. eexists. split; [exact E|].
    apply (like_included articleId (Some userId) _ i
             (Article.with_likes a (Article.likes a ++ [Some o])) Hc).
    + simpl. now apply findById_updateLikes.
    + simpl. rewrite includes_app. simpl. rewrite Hs, String.eqb_refl.
      now rewrite orb_true_r.
Qed.

(** The claim of C5 fails for a user who had liked the article before:
    the like changes nothing, the unlike removes the earlier like, and the
    count ends one below the count before the like. *)
Lemma like_then_unlike_after_earlier_like :
  let P := Sample.platform 0 in
  Article.findById 1%N (articles Sample.liked)
  = Some (Sample.stored 1%N "Dzongkhag news" "general" None [7%N]) /\
  like Sample.article1 (Some Sample.user7) Sample.liked
  = (Sample.liked, inr {| status := 200; json := likesCount 1 |}) /\
  unlike Sample.article1 (Some Sample.user7) Sample.liked
  = (Sample.database [Sample.stored 1%N "Dzongkhag news" "general" None []],
     inr {| status := 200; json := likesCount 0 |}) /\
  ~ like_unlike_restores_count P.
Proof.
  intros P. split; [reflexivity|]. split; [reflexivity|].
  split; [reflexivity|].
  intros H.
  specialize (H Sample.article1 Sample.user7 Sample.liked Sample.liked
                (Sample.database
                   [Sample.stored 1%N "Dzongkhag news" "general" None []])
                1%N (Sample.stored 1%N "Dzongkhag news" "general" None [7%N])
                {| status := 200; json := likesCount 1 |} 0
                eq_refl eq_refl eq_refl eq_refl).
  discriminate H.
Qed.

(** C5, amended.  For an existing article whose likes are identifiers
    (no null entry, and each read back by the cast from its string form),
    and a user id that is the string form of an identifier not yet among
    those likes, or no identifier at all, like followed by unlike with
    that user id returns the count the article had before the like, and
    the database is again as it was. *)
Theorem like_then_unlike_restores :
  forall (P : Platform) (articleId userId : string) (d : Db) (i : ObjectId)
         (a : Article.doc),
    castObjectId articleId = Some i ->
    Article.findById i (articles d) = Some a ->
    ~ In None (Article.likes a) ->
    (forall o, In (Some o) (Article.likes a) ->
               castObjectId (toString o) = Some o) ->
    (forall o, castObjectId userId = Some o ->
               toString o = userId /\ ~ In (Some o) (Article.likes a)) ->
    exists d1 r1,
      like articleId (Some userId) d = (d1, inr r1) /\
      unlike articleId (Some userId) d1
      = (d, inr {| status := 200;
                   json := likesCount (length (Article.likes a)) |}).
Proof.
  intros P articleId userId d i a Hc Hf Hnull Hback Hnew.
  assert (includes (Some userId) (Article.likes a) = false) as Hin.
  { apply includes_stranger. intros o Ho Hs.
    pose proof (Hback o Ho) as B. rewrite Hs in B.
    destruct (Hnew o B) as [_ N]. contradiction. }
  destruct (castObjectId userId) as [o|] eqn:Ho.
  - (* the like appends [o], the unlike filters it out again *)
    pose proof (like_appends articleId userId d i a o Hc Hf Hin Ho) as E.
    eexists. eexists. split; [exact E|].
    rewrite (unlike_filters articleId (Some userId) _ i
               (Article.with_likes a (Article.likes a ++ [Some o])) Hc).
    + cbn [Article.likes Article.with_likes].
      rewrite filter_app, (filter_not_included _ _ Hin). simpl.
      rewrite (proj1 (Hnew o eq_refl)), String.eqb_refl. simpl.
      rewrite app_nil_r, (updateLikes_restore i _ _ a Hf), Db_eta.
      reflexivity.
    + simpl. now apply findById_updateLikes.
    + simpl. intros H. apply in_app_or in H.
      destruct H as [H | [H | []]]; [contradiction | discriminate].
  - (* the like is refused, the unlike finds nothing to remove *)
    pose proof (like_refused articleId userId d i a Hc Hf Hin Ho) as E.
    eexists. eexists. split; [exact E|].
    rewrite (unlike_filters articleId (Some userId) d i a Hc Hf Hnull).
    rewrite (filter_not_included _ _ Hin).
    rewrite (updateLikes_same i _ a Hf), Db_eta.
    reflexivity.
Qed.

Lemma like_then_unlike_restores_witness :
  exists d1 r1,
    like (P := Sample.platform 0) Sample.article1 (Some Sample.user9)
      Sample.liked
    = (d1, inr r1) /\
    unlike (P := Sample.platform 0) Sample.article1 (Some Sample.user9) d1
    = (Sample.liked, inr {| status := 200; json := likesCount 1 |}).
Proof.
  apply (like_then_unlike_restores (Sample.platform 0) Sample.article1
           Sample.user9 Sample.liked 1%N
           (Sample.stored 1%N "Dzongkhag news" "general" None [7%N])).
  - reflexivity.
  - reflexivity.
  - simpl. intros [H | []]. discriminate H.
  - simpl. intros o [H | []]. injection H as <-. reflexivity.
  - intros o H. vm_compute in H. injection H as <-. split.
    + reflexivity.
    + simpl. intros [H | []]. discriminate H.
Defined.

(** Why the user id has to be the rendering of its identifier: the cast
    of the example platform reads upper-case digits, the rendering is in
    lower case, and so a like with ["00000000000000000000000A"] is not
    seen by the next like or by the unlike. *)
Example like_in_another_rendering :
  let P := Sample.platform 0 in
  let userA := Some "00000000000000000000000A" in
  let d1 := fst (like Sample.article1 userA Sample.liked) in
  let d2 := fst (like Sample.article1 userA d1) in
  snd (like Sample.article1 userA d1)
  = inr {| status := 200; json := likesCount 3 |} /\
  snd (unlike Sample.article1 userA d2)
  = inr {| status := 200; json := likesCount 3 |}.
Proof. split; reflexivity. Qed.

(** Why the likes have to be identifiers: a like without a user id is
    answered with 200 and stores a null entry, and from then on the filter
    of [unlike] throws on that article, whoever unlikes. *)
Example like_without_user_id :
  let P := Sample.platform 0 in
  let d1 := fst (like Sample.article1 None Sample.liked) in
  like Sample.article1 None Sample.liked
  = (d1, inr {| status := 200; json := likesCount 2 |}) /\
  map Article.likes (articles d1) = [[Some 7%N; None]] /\
  unlike Sample.article1 (Some Sample.user7) d1
  = (d1, inr {| status := 500; json := message "Failed to unlike article" |}) /\
  like Sample.article1 None d1
  = (d1, inr {| status := 200; json := likesCount 2 |}).
Proof. repeat split. Qed.

(** ** C2 and C3: search *)

Section Search.

Context {P : Platform}.

Lemma msPerDay_pos : (0 < msPerDay)%Z.
Proof. reflexivity. Qed.

Lemma TimeClip_time_value t : is_time_value t -> TimeClip t = Some t.
Proof.
  unfold is_time_value, TimeClip. intros H.
  destruct (Z.leb_spec (Z.abs t) 8640000000000000); [reflexivity | lia].
Qed.

Lemma TimeClip_some t u : TimeClip t = Some u -> u = t /\ is_time_value t.
Proof.
  unfold is_time_value, TimeClip.
  destruct (Z.leb_spec (Z.abs t) 8640000000000000) as [B | B];
    [|discriminate].
  intros E. injection E as <-. lia.
Qed.

(** On a fixed clock the first bound is [TimeClip] of the start of the
    day of the parsed instant, and the second of the instant 86 399 999
    ms after the first. *)
Lemma setHours_fixed_zone off t :
  fixed_zone P off ->
  setHours (Some t) 0 0 0 0 = TimeClip (day_start off t) /\
  setHours (Some (day_start off t)) 23 59 59 999
  = TimeClip (day_start off t + 86399999).
Proof.
  intros Z. unfold setHours, day_start, msPerDay. rewrite !Z. split.
  - f_equal. lia.
  - f_equal.
    replace ((t + off) / 86400000 * 86400000 - off + off)%Z
      with ((t + off) / 86400000 * 86400000)%Z by lia.
    rewrite Z.div_mul by lia. lia.
Qed.

(** The test of the bounds, on a fixed clock and for bounds that are time
    values: published in the half-open range from the start of the day
    to its last millisecond, the latter excluded. *)
Lemma bounds_test_range off date t a :
  fixed_zone P off ->
  Date_parse date = Some t ->
  is_time_value (day_start off t) ->
  is_time_value (day_start off t + 86399999) ->
  bounds_test date a <->
  exists p, Article.publishedAt a = Some p /\
            (day_start off t <= p < day_start off t + 86399999)%Z.
Proof.
  intros Z Ht V1 V2. destruct (setHours_fixed_zone off t Z) as [B1 B2].
  rewrite (TimeClip_time_value _ V1) in B1.
  rewrite (TimeClip_time_value _ V2) in B2.
  unfold bounds_test. rewrite Ht. split.
  - intros [gte [lt [p [H1 [H2 [Hp Hr]]]]]].
    rewrite B1 in H1. injection H1 as <-.
    rewrite B2 in H2. injection H2 as <-.
    now exists p.
  - intros [p [Hp Hr]].
    exists (day_start off t), (day_start off t + 86399999)%Z, p. auto.
Qed.

Lemma text_filter_spec x field :
  (forall p, given x = Some p -> regex_i p <> None) ->
  exists keep,
    text_filter (given x) field = inr keep /\
    forall a, keep a = true <->
              (forall p, given x = Some p -> pattern_matches p (field a)).
Proof.
  intros W. unfold text_filter.
  destruct (given x) as [p|].
  - destruct (regex_i p) as [m|] eqn:Hm; [|now elim (W p eq_refl)].
    eexists. split; [reflexivity|]. intros a. split.
    + intros H p' E. injection E as <-.
      destruct (field a) as [s|]; [|discriminate].
      now exists m, s.
    + intros H. destruct (H p eq_refl) as [m' [s [Hm' [Hs Hms]]]].
      rewrite Hs. congruence.
  - eexists. split; [reflexivity|]. intros a. split; [discriminate|reflexivity].
Qed.

Lemma date_filter_spec q :
  (forall date, given (q_date q) = Some date ->
                exists gte lt,
                  setHours (Date_parse date) 0 0 0 0 = Some gte /\
                  setHours (Some gte) 23 59 59 999 = Some lt) ->
  exists keep,
    date_filter (c_publishedAt (searchCriteria q)) = inr keep /\
    forall a, keep a = true <->
              (forall date, given (q_date q) = Some date ->
                            bounds_test date a).
Proof.
  intros W. unfold searchCriteria. cbn [c_publishedAt].
  destruct (given (q_date q)) as [date|].
  - destruct (W date eq_refl) as [gte [lt [B1 B2]]].
    cbv zeta. rewrite B1, B2. simpl.
    eexists. split; [reflexivity|]. intros a. split.
    + intros H date' E. injection E as <-.
      destruct (Article.publishedAt a) as [p|] eqn:Hp; [|discriminate].
      exists gte, lt, p. repeat split; auto.
      * apply andb_true_iff in H. destruct H as [H1 _].
        now apply Z.leb_le in H1.
      * apply andb_true_iff in H. destruct H as [_ H2].
        now apply Z.ltb_lt in H2.
    + intros H. destruct (H date eq_refl) as [g [l [p [H1 [H2 [Hp Hr]]]]]].
      rewrite B1 in H1. injection H1 as <-.
      rewrite B2 in H2. injection H2 as <-.
      rewrite Hp. apply andb_true_iff.
      split; [apply Z.leb_le | apply Z.ltb_lt]; lia.
  - eexists. split; [reflexivity|]. intros a. split; [discriminate|reflexivity].
Qed.

(** The compiled criteria decide [passes_filters]. *)
Lemma compile_spec q :
  compiles q ->
  exists keep,
    compile (searchCriteria q) = inr keep /\
    forall a, keep a = true <-> passes_filters q a.
Proof.
  intros [W1 [W2 [W3 W4]]].
  destruct (text_filter_spec (q_title q)
              (fun a => Some (Article.title a)) W1) as [k1 [E1 S1]].
  destruct (text_filter_spec (q_country q)
              (fun a => Source.country (Article.source a)) W2)
    as [k2 [E2 S2]].
  destruct (text_filter_spec (q_category q)
              (fun a => Some (Article.category a)) W3) as [k3 [E3 S3]].
  destruct (date_filter_spec q W4) as [k4 [E4 S4]].
  unfold compile.
  change (c_title (searchCriteria q)) with (given (q_title q)).
  change (c_country (searchCriteria q)) with (given (q_country q)).
  change (c_category (searchCriteria q)) with (given (q_category q)).
  rewrite E1, E2, E3, E4. simpl.
  eexists. split; [reflexivity|]. intros a. unfold passes_filters.
  rewrite <- S1, <- S2, <- S3, <- S4.
  rewrite !andb_true_iff. tauto.
Qed.

Lemma filter_all {A} (keep : A -> bool) (l : list A) :
  (forall a, keep a = true) -> filter keep l = l.
Proof.
  intros H. induction l as [|x l IH]; simpl; [reflexivity|].
  now rewrite H, IH.
Qed.

(** The route, once the criteria compile. *)
Lemma search_compiled q d keep :
  compile (searchCriteria q) = inr keep ->
  search q d = (d, inr (search_answer (filter keep (articles d)))).
Proof.
  intros E. unfold search, try_catch, bind, Article_find, gets.
  rewrite E. simpl.
  destruct (filter keep (articles d)); reflexivity.
Qed.

(** The route, when a criterion cannot be evaluated. *)
Lemma search_refused q d e :
  compile (searchCriteria q) = inl e ->
  search q d
  = (d, inr {| status := 500;
               json := message "An error occurred while searching for articles" |}).
Proof.
  intros E. unfold search, try_catch, bind, Article_find, throw.
  rewrite E. reflexivity.
Qed.

End Search.

(** The same query, evaluated: the one general article is found. *)
Example search_by_title_and_category :
  let P := Sample.platform 0 in
  search {| q_title := Some "NEWS"; q_country := Some "";
            q_category := Some "gen"; q_date := None |}
    (Sample.database
       [Sample.stored 1%N "Dzongkhag news" "general" None [];
        Sample.stored 2%N "Archery final" "sports" None []])
  = (Sample.database
       [Sample.stored 1%N "Dzongkhag news" "general" None [];
        Sample.stored 2%N "Archery final" "sports" None []],
     inr {| status := 200;
            json := article_list
                      [Sample.stored 1%N "Dzongkhag news" "general" None []] |}).
Proof. reflexivity. Qed.

(** A pattern the store refuses, or a date that is none, is answered with
    500: neither results nor not-found. *)
Example search_refused_pattern :
  let P := Sample.platform 0 in
  search {| q_title := Some "("; q_country := None;
            q_category := None; q_date := None |} Sample.liked
  = (Sample.liked,
     inr {| status := 500;
            json := message "An error occurred while searching for articles" |}).
Proof. reflexivity. Qed.

Example search_invalid_date :
  let P := Sample.platform 0 in
  search (Sample.on_date "yesterday") Sample.liked
  = (Sample.liked,
     inr {| status := 500;
            json := message "An error occurred while searching for articles" |}).
Proof. reflexivity. Qed.


(** The date filter on a fixed clock, for a date whose bounds are time
    values: an article is kept exactly when it is published from the
    first instant of the local day on which the parsed date falls up to,
    and not including, that day's 23:59:59.999. *)
Lemma search_date_range (P : Platform) off date t d :
  fixed_zone P off ->
  Date_parse date = Some t ->
  date <> "" ->
  is_time_value (day_start off t) ->
  is_time_value (day_start off t + 86399999) ->
  exists found,
    search (Sample.on_date date) d = (d, inr (search_answer found)) /\
    forall a, In a found <->
              In a (articles d) /\
              exists p, Article.publishedAt a = Some p /\
                        (day_start off t <= p < day_start off t + 86399999)%Z.
Proof.
  intros Z Ht Hne V1 V2.
  assert (given (Some date) = Some date) as G.
  { unfold given. simpl. apply String.eqb_neq in Hne. now rewrite Hne. }
  destruct (setHours_fixed_zone off t Z) as [B1 B2].
  rewrite (TimeClip_time_value _ V1) in B1.
  rewrite (TimeClip_time_value _ V2) in B2.
  assert (compiles (Sample.on_date date)) as W.
  { unfold compiles. simpl. repeat split; try discriminate.
    intros date' E. rewrite G in E. injection E as <-.
    rewrite Ht. eauto. }
  destruct (compile_spec _ W) as [keep [E S]].
  exists (filter keep (articles d)).
  split; [now apply search_compiled|].
  intros a. rewrite filter_In, S.
  rewrite <- (bounds_test_range off date t a Z Ht V1 V2).
  unfold passes_filters. simpl. rewrite G. split.
  - intros [Hin [_ [_ [_ H]]]]. split; [exact Hin | now apply H].
  - intros [Hin H]. split; [exact Hin|].
    repeat split; try discriminate.
    intros date' E'. now injection E' as <-.
Qed.

(** C2.  The search does not return every stored article that satisfies
    the conjunction of the provided criteria.  On a server on UTC, the
    stored article "Dzongkhag news", published at 2024-01-15 23:59:59.999,
    satisfies both criteria of the query title=news, date=2024-01-15: its
    title contains "news", and its publication time lies within
    [2024-01-15 00:00:00.000, 2024-01-15 23:59:59.999].  The search by the
    title alone returns it; the search by title and date answers with the
    not-found condition, although the matching set is not empty. *)
Theorem search_misses_article_meeting_all_criteria :
  let P := Sample.platform 0 in
  let last := Sample.Date_UTC 2024 1 15 23 59 59 999 in
  let d := Sample.published last in
  Sample.contains (Sample.lowercase "news")
    (Sample.lowercase "Dzongkhag news") = true /\
  (Sample.Date_UTC 2024 1 15 0 0 0 0 <= last
   <= Sample.Date_UTC 2024 1 15 23 59 59 999)%Z /\
  search {| q_title := Some "news"; q_country := None;
            q_category := None; q_date := None |} d
  = (d, inr {| status := 200; json := article_list (articles d) |}) /\
  search {| q_title := Some "news"; q_country := None;
            q_category := None; q_date := Some "2024-01-15" |} d
  = (d, inr {| status := 404;
               json := message "No articles found matching your query" |}).
Proof.
  intros P last d. split; [reflexivity|]. split; [|split].
  - vm_compute. split; discriminate.
  - reflexivity.
  - reflexivity.
Qed.

(** On a server on UTC the instances of the specification come out as it
    says: the article of 10:00 is found, the one of the next day is not. *)
Example search_date_instances_on_UTC :
  let P := Sample.platform 0 in
  let morning := Sample.Date_UTC 2024 1 15 10 0 0 0 in
  let next_day := Sample.Date_UTC 2024 1 16 0 0 1 0 in
  snd (search (Sample.on_date "2024-01-15") (Sample.published morning))
  = inr {| status := 200; json := article_list (articles (Sample.published morning)) |} /\
  snd (search (Sample.on_date "2024-01-15") (Sample.published next_day))
  = inr {| status := 404;
           json := message "No articles found matching your query" |}.
Proof. split; reflexivity. Qed.

(** C3. The date filter is not the closed range of the day.  On a server
    on UTC, the article published at 2024-01-15 23:59:59.999 lies within
    [2024-01-15 00:00:00.000, 2024-01-15 23:59:59.999], and the search for
    2024-01-15 does not find it: the upper bound is compared with [$lt].
    And on a server five hours behind UTC the search for 2024-01-15 looks
    at the local day of the 14th, the date-only text being read as
    midnight UTC: the article of 2024-01-15T10:00:00Z, 05:00 local time on
    the 15th, is not found. *)
Theorem search_date_misses_last_millisecond :
  let last := Sample.Date_UTC 2024 1 15 23 59 59 999 in
  let morning := Sample.Date_UTC 2024 1 15 10 0 0 0 in
  (Sample.Date_UTC 2024 1 15 0 0 0 0 <= last
   <= Sample.Date_UTC 2024 1 15 23 59 59 999)%Z /\
  search (P := Sample.platform 0) (Sample.on_date "2024-01-15")
    (Sample.published last)
  = (Sample.published last,
     inr {| status := 404;
            json := message "No articles found matching your query" |}) /\
  search (P := Sample.platform (-5)) (Sample.on_date "2024-01-15")
    (Sample.published morning)
  = (Sample.published morning,
     inr {| status := 404;
            json := message "No articles found matching your query" |}).
Proof.
  intros last morning. split; [|split].
  - vm_compute. split; discriminate.
  - reflexivity.
  - reflexivity.
Qed.

(** ** C9 and C10: the category routes *)

Lemma findByCategory_none c coll :
  (forall a, In a coll -> Article.category a <> c) ->
  Article.findByCategory c coll = [].
Proof.
  unfold Article.findByCategory.
  induction coll as [|x coll IH]; simpl; [reflexivity|].
  intros H. destruct (String.eqb_spec (Article.category x) c) as [E | _].
  - exfalso. apply (H x); [now left | exact E].
  - apply IH. intros a Ha. apply H. now right.
Qed.

(** The answer of a category route: always 200, with the articles of the
    category, and the database untouched. *)
Lemma serve_answer r d :
  serve r d
  = (d, inr {| status := 200;
               json :=
                 match r with
                 | GET_headlines =>
                     headline_list
                       (map (fun a => {| article := a;
                                         likeCount := length (Article.likes a) |})
                          (Article.findByCategory "general" (articles d)))
                 | _ => article_list
                          (Article.findByCategory (route_category r)
                             (articles d))
                 end |}).
Proof. destruct r; reflexivity. Qed.

(** C9. A category route answers an empty category with 200 and an empty
    list.  For each of [/headlines], [/sports], [/health], [/business],
    [/technology] and [/categories/:category], when no stored article has
    the route's category the answer has status 200 and carries the empty
    list; it is never the 404 of the search. *)
Theorem category_routes_answer_empty_list :
  forall (r : CategoryRoute) (d : Db),
    (forall a, In a (articles d) -> Article.category a <> route_category r) ->
    serve r d
    = (d, inr {| status := 200;
                 json := match r with
                         | GET_headlines => headline_list []
                         | _ => article_list []
                         end |}).
Proof.
  intros r d H. rewrite serve_answer.
  pose proof (findByCategory_none (route_category r) (articles d) H) as E.
  destruct r; simpl in *; now rewrite E.
Qed.

Lemma category_routes_answer_empty_list_witness :
  serve (GET_categories "science") Sample.liked
  = (Sample.liked, inr {| status := 200; json := article_list [] |}) /\
  serve GET_sports Sample.liked
  = (Sample.liked, inr {| status := 200; json := article_list [] |}).
Proof.
  split.
  - apply (category_routes_answer_empty_list (GET_categories "science")
             Sample.liked).
    intros a [<- | []]. discriminate.
  - apply (category_routes_answer_empty_list GET_sports Sample.liked).
    intros a [<- | []]. discriminate.
Defined.

(** C10. Every item of the [/headlines] answer carries a [likeCount]
    equal to the number of entries of that article's likes (and the count
    of an absent likes field is 0); the items are the stored general
    articles, in stored order; and serving the request leaves the database
    as it was. *)
Theorem headlines_carry_likeCount :
  forall d : Db,
    exists items,
      headlines d
      = (d, inr {| status := 200; json := headline_list items |}) /\
      map article items = Article.findByCategory "general" (articles d) /\
      Forall (fun item =>
                likeCount item = length (Article.likes (article item)))
        items /\
      likeCount_of None = 0.
Proof.
  intros d.
  exists (map (fun a => {| article := a;
                           likeCount := likeCount_of (Some (Article.likes a)) |})
            (Article.findByCategory "general" (articles d))).
  split; [reflexivity|]. split; [|split; [|reflexivity]].
  - rewrite map_map. simpl. apply map_id.
  - apply Forall_forall. intros item Hin.
    apply in_map_iff in Hin. destruct Hin as [a [<- _]]. reflexivity.
Qed.

(** * Further properties of the code *)

(** ** The ingestion only appends *)

Lemma Forall_ingested_app c (l1 l2 : list Article.doc) :
  Forall (ingested_under c) l1 -> Forall (ingested_under c) l2 ->
  Forall (ingested_under c) (l1 ++ l2).
Proof. intros H1 H2. apply Forall_app. now split. Qed.

(** One attempt: the stored articles stay in place, at most one article
    of the category is added behind them, the users are not touched. *)
Lemma insertIfAbsent_adds category a w :
  exists new,
    articles (db (fst (insertIfAbsent category a w)))
    = (articles (db w) ++ new)%list /\
    users (db (fst (insertIfAbsent category a w))) = users (db w) /\
    Forall (ingested_under category) new.
Proof.
  destruct (Article.findOne (Feed.title a) (articles (db w))) as [x|] eqn:F.
  - rewrite (insertIfAbsent_existing category a w x F). simpl.
    exists []. rewrite app_nil_r. auto.
  - destruct (required_ok (Feed.title a)) eqn:R.
    + destruct (Feed.title a) as [t|] eqn:Ht; [|discriminate].
      assert (t <> "") as Hne.
      { simpl in R. intros E. subst t. discriminate. }
      rewrite (insertIfAbsent_new category a w t Ht Hne F). simpl.
      eexists. split; [reflexivity|]. split; [reflexivity|].
      constructor; [|constructor]. unfold ingested_under. simpl. auto.
    + rewrite (insertIfAbsent_refused category a w R F). simpl.
      exists []. rewrite app_nil_r. auto.
Qed.

Lemma for_of_insert_adds category l :
  forall w, exists new,
    articles (db (fst (for_of l (insertIfAbsent category) w)))
    = (articles (db w) ++ new)%list /\
    users (db (fst (for_of l (insertIfAbsent category) w))) = users (db w) /\
    Forall (ingested_under category) new.
Proof.
  induction l as [|a l IH]; intros w; simpl.
  - exists []. rewrite app_nil_r. auto.
  - unfold bind.
    destruct (insertIfAbsent_adds category a w) as [n1 [A1 [U1 F1]]].
    destruct (insertIfAbsent category a w) as [w1 [e|[]]]; simpl in *.
    + now exists n1.
    + destruct (IH w1) as [n2 [A2 [U2 F2]]].
      exists (n1 ++ n2)%list. rewrite A2, A1, U2, U1, app_assoc.
      split; [reflexivity|]. split; [reflexivity|].
      now apply Forall_ingested_app.
Qed.

(** The turn of a category and the loop over its feed leave the same
    database; a failed fetch leaves the database it found. *)
Lemma fetchAndSaveArticles_db feed category w :
  db (fst (fetchAndSaveArticles feed category w))
  = match feed category with
    | Feed.failed _ => db w
    | Feed.data l => db (fst (for_of l (insertIfAbsent category) w))
    end.
Proof.
  unfold fetchAndSaveArticles, try_catch, bind, axios_get.
  destruct (feed category) as [e|l]; simpl; [reflexivity|].
  destruct (for_of l (insertIfAbsent category) w) as [w1 [e|[]]];
    reflexivity.
Qed.

Lemma fetchCategory_db feed category w :
  db (fst (fetchCategory feed category w))
  = db (fst (fetchAndSaveArticles feed category w)).
Proof.
  unfold fetchCategory, try_catch, bind.
  destruct (fetchAndSaveArticles feed category w) as [w1 [e|m]]; reflexivity.
Qed.

(** X1. A call of [fetchAndSaveArticles] only appends: the articles it
    found stay where and as they were, whatever it adds comes behind them
    and is an article of the requested category, liked by no one, under a
    non-empty title; the users are not touched.  This holds whether the
    call returns or throws. *)
Theorem fetchAndSaveArticles_only_appends :
  forall (feed : string -> Feed.response) (category : string) (w : World),
    exists new,
      articles (db (fst (fetchAndSaveArticles feed category w)))
      = (articles (db w) ++ new)%list /\
      users (db (fst (fetchAndSaveArticles feed category w)))
      = users (db w) /\
      Forall (ingested_under category) new.
Proof.
  intros feed category w. rewrite fetchAndSaveArticles_db.
  destruct (feed category) as [e|l].
  - exists []. rewrite app_nil_r. auto.
  - apply for_of_insert_adds.
Qed.

Lemma fetchCategory_adds feed category w :
  exists new,
    articles (db (fst (fetchCategory feed category w)))
    = (articles (db w) ++ new)%list /\
    users (db (fst (fetchCategory feed category w))) = users (db w) /\
    Forall (ingested_under category) new.
Proof.
  rewrite fetchCategory_db, fetchAndSaveArticles_db.
  destruct (feed category) as [e|l].
  - exists []. rewrite app_nil_r. auto.
  - apply for_of_insert_adds.
Qed.

Lemma after_categories_adds feed cs :
  forall w, exists new,
    articles (db (after_categories feed cs w))
    = (articles (db w) ++ new)%list /\
    users (db (after_categories feed cs w)) = users (db w) /\
    Forall (fun doc => exists c, In c cs /\ ingested_under c doc) new.
Proof.
  induction cs as [|c cs IH]; intros w; simpl.
  - exists []. rewrite app_nil_r. auto.
  - destruct (fetchCategory_adds feed c w) as [n1 [A1 [U1 F1]]].
    destruct (IH (fst (fetchCategory feed c w))) as [n2 [A2 [U2 F2]]].
    exists (n1 ++ n2)%list. rewrite A2, A1, U2, U1, app_assoc.
    split; [reflexivity|]. split; [reflexivity|].
    apply Forall_app. split.
    + eapply Forall_impl; [|exact F1]. intros doc H. exists c.
      split; [now left | exact H].
    + eapply Forall_impl; [|exact F2]. intros doc [c' [Hc H]].
      exists c'. split; [now right | exact H].
Qed.

Lemma fetchCategory_unique_titles feed category w :
  Article.unique_titles (articles (db w)) ->
  Article.unique_titles (articles (db (fst (fetchCategory feed category w)))).
Proof.
  intros U. rewrite fetchCategory_db, fetchAndSaveArticles_db.
  destruct (feed category) as [e|l]; [exact U|].
  revert w U. induction l as [|a l IH]; intros w U; simpl; [exact U|].
  unfold bind.
  pose proof (insertIfAbsent_unique_titles category a w U) as U1.
  destruct (insertIfAbsent category a w) as [w1 [e|[]]]; simpl in *.
  - exact U1.
  - now apply IH.
Qed.

Lemma fetchAllCategories_state feed w :
  fst (fetchAllCategories feed w) = after_categories feed categories w.
Proof. unfold fetchAllCategories. now rewrite for_of_fetchCategory. Qed.

Lemma after_categories_unique_titles feed cs :
  forall w, Article.unique_titles (articles (db w)) ->
            Article.unique_titles (articles (db (after_categories feed cs w))).
Proof.
  induction cs as [|c cs IH]; intros w U; simpl; [exact U|].
  apply IH. now apply fetchCategory_unique_titles.
Qed.

(** X2. The start-up task keeps the unique index on titles and only
    appends: on a store without duplicate titles it leaves a store without
    duplicate titles, in which the articles it found are unchanged and
    every added article belongs to one of the five categories, has no
    likes and a non-empty title; the users are as before. *)
Theorem fetchAllCategories_keeps_titles_unique :
  forall (feed : string -> Feed.response) (w : World),
    Article.unique_titles (articles (db w)) ->
    Article.unique_titles (articles (db (fst (fetchAllCategories feed w)))) /\
    exists new,
      articles (db (fst (fetchAllCategories feed w)))
      = (articles (db w) ++ new)%list /\
      users (db (fst (fetchAllCategories feed w))) = users (db w) /\
      Forall (fun doc => exists c, In c categories /\ ingested_under c doc)
        new.
Proof.
  intros feed w U. rewrite fetchAllCategories_state. split.
  - now apply after_categories_unique_titles.
  - apply after_categories_adds.
Qed.

Lemma fetchAllCategories_keeps_titles_unique_witness :
  let w := Sample.world
             (Sample.database
                [Sample.stored 1%N "Archery final" "general" None [7%N]]) in
  Article.unique_titles
    (articles (db (fst (fetchAllCategories Sample.feed w)))) /\
  exists new,
    articles (db (fst (fetchAllCategories Sample.feed w)))
    = (articles (db w) ++ new)%list /\
    users (db (fst (fetchAllCategories Sample.feed w))) = users (db w) /\
    Forall (fun doc => exists c, In c categories /\ ingested_under c doc) new.
Proof.
  intros w.
  apply (fetchAllCategories_keeps_titles_unique Sample.feed w).
  unfold Article.unique_titles. simpl.
  constructor; [intros [] | constructor].
Defined.

(** ** Running the ingestion again *)

Lemma added_titles_not_empty c (old new : list Article.doc) :
  Forall (ingested_under c) new ->
  In "" (map Article.title (old ++ new)) -> In "" (map Article.title old).
Proof.
  intros F H. rewrite map_app in H. apply in_app_or in H.
  destruct H as [H | H]; [exact H|].
  apply in_map_iff in H. destruct H as [doc [E Hin]].
  rewrite Forall_forall in F. destruct (F doc Hin) as [_ [_ Hne]].
  now elim Hne.
Qed.

(** No run of the loop stores the empty title. *)
Lemma for_of_insert_no_empty category l w :
  stores (fst (for_of l (insertIfAbsent category) w)) "" -> stores w "".
Proof.
  unfold stores.
  destruct (for_of_insert_adds category l w) as [new [A [_ F]]].
  rewrite A. now apply added_titles_not_empty with (c := category).
Qed.

Lemma fetchCategory_no_empty feed category w :
  stores (fst (fetchCategory feed category w)) "" -> stores w "".
Proof.
  unfold stores.
  destruct (fetchCategory_adds feed category w) as [new [A [_ F]]].
  rewrite A. now apply added_titles_not_empty with (c := category).
Qed.

Lemma refused_title_is_empty (x : option string) t :
  required_ok x = false -> x = Some t -> t = "".
Proof.
  intros R ->. simpl in R. apply negb_false_iff in R.
  now apply String.eqb_eq in R.
Qed.

(** The loop over a feed, run on a state that stores every title its
    first run left stored and no new empty title, writes nothing: each
    item is skipped, or refused where it was refused before. *)
Lemma for_of_insert_rerun category category' l :
  forall w w',
    (forall t, stores (fst (for_of l (insertIfAbsent category) w)) t ->
               stores w' t) ->
    (stores w' "" -> stores w "") ->
    db (fst (for_of l (insertIfAbsent category') w')) = db w'.
Proof.
  induction l as [|a l IH]; intros w w' A B; simpl; [reflexivity|].
  simpl in A. unfold bind in *.
  assert (forall w1 t,
             insertIfAbsent category a w = (w1, inr tt) ->
             Feed.title a = Some t -> stores w1 t ->
             db (fst (let (s', s0) := insertIfAbsent category' a w' in
                      match s0 with
                      | inl e => (s', inl e)
                      | inr _ => for_of l (insertIfAbsent category') s'
                      end)) = db w') as Skip.
  { intros w1 t E1 Ht S1. rewrite E1 in A.
    assert (stores w' t) as S'.
    { apply A. now apply for_of_insert_keeps. }
    destruct (in_titles_find t _ S') as [y Hy].
    rewrite (insertIfAbsent_existing category' a w' y)
      by (now rewrite Ht).
    rewrite (IH w1); [reflexivity | |].
    - intros t' H. apply A in H. exact H.
    - intros H. simpl in H. apply B in H.
      pose proof (insertIfAbsent_keeps category a w "" H) as K.
      now rewrite E1 in K. }
  destruct (Article.findOne (Feed.title a) (articles (db w))) as [x|] eqn:F.
  - destruct (Feed.title a) as [t|] eqn:Ht; [|discriminate].
    apply (Skip _ t (insertIfAbsent_existing category a w x
                       ltac:(now rewrite Ht)) eq_refl).
    simpl. now apply (find_some_title t _ x).
  - destruct (required_ok (Feed.title a)) eqn:R.
    + destruct (Feed.title a) as [t|] eqn:Ht; [|discriminate].
      assert (t <> "") as Hne.
      { simpl in R. intros E. subst t. discriminate. }
      apply (Skip _ t (insertIfAbsent_new category a w t Ht Hne F) eq_refl).
      unfold stores. simpl. rewrite map_app. apply in_or_app. right.
      simpl. now left.
    + assert (Article.findOne (Feed.title a) (articles (db w')) = None) as F'.
      { destruct (Feed.title a) as [t|] eqn:Ht; [|reflexivity].
        pose proof (refused_title_is_empty (Some t) t R eq_refl) as ->.
        destruct (Article.findOne (Some "") (articles (db w')))
          as [y|] eqn:Fy; [|reflexivity].
        exfalso. apply find_some_title in Fy. apply B in Fy.
        destruct (in_titles_find "" _ Fy) as [z Hz].
        simpl in F. congruence. }
      now rewrite (insertIfAbsent_refused category' a w' R F').
Qed.

Lemma fetchCategory_rerun feed category w w' :
  (forall t, stores (fst (fetchCategory feed category w)) t -> stores w' t) ->
  (stores w' "" -> stores w "") ->
  db (fst (fetchCategory feed category w')) = db w'.
Proof.
  intros A B. rewrite fetchCategory_db, fetchAndSaveArticles_db.
  destruct (feed category) as [e|l] eqn:Hf; [reflexivity|].
  apply (for_of_insert_rerun category category l w w'); [|exact B].
  intros t H. apply A. unfold stores in *.
  now rewrite fetchCategory_db, fetchAndSaveArticles_db, Hf.
Qed.

Lemma after_categories_no_empty feed cs :
  forall w, stores (after_categories feed cs w) "" -> stores w "".
Proof.
  induction cs as [|c cs IH]; intros w H; simpl in *; [exact H|].
  apply (fetchCategory_no_empty feed c). now apply IH.
Qed.

Lemma after_categories_rerun feed cs :
  forall w w',
    (forall t, stores (after_categories feed cs w) t -> stores w' t) ->
    (stores w' "" -> stores w "") ->
    db (after_categories feed cs w') = db w'.
Proof.
  induction cs as [|c cs IH]; intros w w' A B; simpl in *; [reflexivity|].
  assert (db (fst (fetchCategory feed c w')) = db w') as E.
  { apply (fetchCategory_rerun feed c w w'); [|exact B].
    intros t H. apply A. now apply after_categories_keeps. }
  rewrite (IH (fst (fetchCategory feed c w))); [exact E | |].
  - intros t H. apply A in H. unfold stores in *. now rewrite E.
  - intros H. unfold stores in H. rewrite E in H. apply B in H.
    now apply fetchCategory_keeps.
Qed.

(** X3. Running the start-up task a second time on the same feed stores
    nothing: the database after two runs is the database after one.
    Every title of the first run is found stored and skipped, and an item
    the schema refused is refused again. *)
Theorem fetchAllCategories_twice :
  forall (feed : string -> Feed.response) (w : World),
    db (fst (fetchAllCategories feed (fst (fetchAllCategories feed w))))
    = db (fst (fetchAllCategories feed w)).
Proof.
  intros feed w. rewrite !fetchAllCategories_state.
  apply (after_categories_rerun feed categories w).
  - auto.
  - apply after_categories_no_empty.
Qed.

(** ** Failures inside a category *)

Lemma for_of_app {S A} (l1 l2 : list A) (body : A -> M S unit) (s : S) :
  for_of (l1 ++ l2) body s
  = match for_of l1 body s with
    | (s1, inr _) => for_of l2 body s1
    | (s1, inl e) => (s1, inl e)
    end.
Proof.
  revert s. induction l1 as [|x l1 IH]; intros s; simpl; [reflexivity|].
  unfold bind. destruct (body x s) as [s1 [e|u]]; [reflexivity | apply IH].
Qed.

(** X4. An item the schema refuses ends the ingestion of its category:
    the items before it are stored, the items after it are not looked at,
    the cause is reported and the call throws the wrapped error.  (The
    feed has accepted items, then an item without a usable title; no
    stored article has the empty title.) *)
Theorem fetchAndSaveArticles_stops_at_refused_item :
  forall (feed : string -> Feed.response) (category : string) (w : World)
         (before after : list Feed.article) (bad : Feed.article),
    feed category = Feed.data (before ++ bad :: after) ->
    Forall schema_accepts before ->
    required_ok (Feed.title bad) = false ->
    ~ stores w "" ->
    fetchAndSaveArticles feed category w
    = ({| db := db (fst (for_of before (insertIfAbsent category) w));
          console :=
            console (fst (for_of before (insertIfAbsent category) w))
            ++ [error ("Error fetching " ++ category ++ " headlines:")
                  (ValidationError "title")] |},
       inl (Error (wrapped_message category))).
Proof.
  intros feed category w before after bad Hf Hacc R Hno.
  destruct (for_of_insert_accepted category before Hacc w) as [w1 [E1 _]].
  assert (~ stores w1 "") as Hno1.
  { intros H. apply Hno. apply (for_of_insert_no_empty category before).
    now rewrite E1. }
  assert (Article.findOne (Feed.title bad) (articles (db w1)) = None) as F.
  { destruct (Feed.title bad) as [t|] eqn:Ht; [|reflexivity].
    pose proof (refused_title_is_empty (Some t) t R eq_refl) as ->.
    destruct (Article.findOne (Some "") (articles (db w1))) as [y|] eqn:Fy;
      [|reflexivity].
    exfalso. apply Hno1. now apply (find_some_title "" _ y). }
  unfold fetchAndSaveArticles, try_catch, bind, axios_get. rewrite Hf.
  unfold ret at 1. rewrite for_of_app, E1. simpl. unfold bind.
  rewrite (insertIfAbsent_refused category bad w1 R F). reflexivity.
Qed.

Lemma fetchAndSaveArticles_stops_at_refused_item_witness :
  db (fst (fetchAndSaveArticles Sample.broken_feed "sports"
             (Sample.world Sample.empty)))
  = db (fst (for_of [Sample.item (Some "Archery final") None]
               (insertIfAbsent "sports") (Sample.world Sample.empty))) /\
  snd (fetchAndSaveArticles Sample.broken_feed "sports"
         (Sample.world Sample.empty))
  = inl (Error "An error occurred while fetching sports headlines.").
Proof.
  rewrite (fetchAndSaveArticles_stops_at_refused_item Sample.broken_feed
             "sports" (Sample.world Sample.empty)
             [Sample.item (Some "Archery final") None]
             [Sample.item (Some "Tsechu dates") None]
             (Sample.item None None)).
  - split; reflexivity.
  - reflexivity.
  - constructor; [reflexivity | constructor].
  - reflexivity.
  - intros H. exact H.
Defined.

(** X5. [fetchAndSaveArticles] has two outcomes.  Either the fetch
    answered and every item went through, and the call returns the
    message for the category; or it throws the error that names the
    category, and that only, after the cause has been written to the
    console as its last line. *)
Theorem fetchAndSaveArticles_outcomes :
  forall (feed : string -> Feed.response) (category : string) (w : World),
    (exists l,
        feed category = Feed.data l /\
        snd (for_of l (insertIfAbsent category) w) = inr tt /\
        fetchAndSaveArticles feed category w
        = (fst (for_of l (insertIfAbsent category) w),
           inr ("Headlines for category " ++ category
                ++ " fetched and saved to the database (if new)."))) \/
    (exists cause lines,
        snd (fetchAndSaveArticles feed category w)
        = inl (Error ("An error occurred while fetching " ++ category
                      ++ " headlines.")) /\
        console (fst (fetchAndSaveArticles feed category w))
        = (lines ++ [error ("Error fetching " ++ category ++ " headlines:")
                       cause])%list).
Proof.
  intros feed category w.
  unfold fetchAndSaveArticles, try_catch, bind, axios_get.
  destruct (feed category) as [e|l] eqn:Hf; simpl.
  - right. exists e, (console w). split; reflexivity.
  - destruct (for_of l (insertIfAbsent category) w) as [w1 [e|[]]] eqn:E;
      simpl.
    + right. exists e, (console w1). split; reflexivity.
    + left. exists l. rewrite E. repeat split; reflexivity.
Qed.

(** X6. What a category's turn stores is served under that category.
    After the turn for a category whose feed the schema accepts, a feed
    title that was not stored before belongs to an article in the answer
    of [GET /categories/:category] for that category, with no likes. *)
Theorem ingested_article_is_served :
  forall (feed : string -> Feed.response) (category : string) (w : World)
         (l : list Feed.article) (a : Feed.article) (t : string),
    feed category = Feed.data l ->
    Forall schema_accepts l ->
    In a l -> Feed.title a = Some t ->
    ~ stores w t ->
    exists found doc,
      categories_route category (db (fst (fetchCategory feed category w)))
      = (db (fst (fetchCategory feed category w)),
         inr {| status := 200; json := article_list found |}) /\
      In doc found /\
      Article.title doc = t /\ Article.likes doc = [].
Proof.
  intros feed category w l a t Hf Hacc Ha Ht Hnew.
  pose proof (fetchCategory_accepted feed category w l Hf Hacc a t Ha Ht) as S.
  destruct (fetchCategory_adds feed category w) as [new [A [_ F]]].
  unfold stores in S. rewrite A, map_app in S. apply in_app_or in S.
  destruct S as [S | S]; [now elim Hnew|].
  apply in_map_iff in S. destruct S as [doc [Edoc Hin]].
  rewrite Forall_forall in F. destruct (F doc Hin) as [Hc [Hl _]].
  eexists. exists doc. split; [reflexivity|]. split; [|split; assumption].
  unfold Article.findByCategory. apply filter_In. split.
  - rewrite A. apply in_or_app. now right.
  - rewrite Hc. apply String.eqb_refl.
Qed.

Lemma ingested_article_is_served_witness :
  exists found doc,
    categories_route "sports"
      (db (fst (fetchCategory Sample.feed "sports"
                  (Sample.world Sample.liked))))
    = (db (fst (fetchCategory Sample.feed "sports"
                  (Sample.world Sample.liked))),
       inr {| status := 200; json := article_list found |}) /\
    In doc found /\
    Article.title doc = "Archery final" /\ Article.likes doc = [].
Proof.
  apply (ingested_article_is_served Sample.feed "sports"
           (Sample.world Sample.liked)
           [Sample.item (Some "Archery final") None]
           (Sample.item (Some "Archery final") None)).
  - reflexivity.
  - constructor; [reflexivity | constructor].
  - now left.
  - reflexivity.
  - intros [H | []]. discriminate H.
Defined.

(** ** The webhook: deletion, bad requests, invariants *)

Lemma findOneAndDelete_absent i coll :
  existsb (User.has_id i) coll = false -> User.findOneAndDelete i coll = coll.
Proof.
  induction coll as [|u coll IH]; simpl; [reflexivity|].
  destruct (User.has_id i u); simpl; [discriminate|].
  intros H. f_equal. now apply IH.
Qed.

Lemma findOneAndDelete_last i coll u :
  existsb (User.has_id i) coll = false -> User.has_id i u = true ->
  User.findOneAndDelete i (coll ++ [u]) = coll.
Proof.
  intros H Hu. induction coll as [|x coll IH]; simpl in *.
  - now rewrite Hu.
  - destruct (User.has_id i x); simpl in *; [discriminate|].
    f_equal. now apply IH.
Qed.

Lemma count_id_delete i coll :
  User.count_id i (User.findOneAndDelete i coll)
  = pred (User.count_id i coll).
Proof.
  unfold User.count_id.
  induction coll as [|u coll IH]; simpl; [reflexivity|].
  destruct (User.has_id i u) eqn:E; simpl.
  - reflexivity.
  - now rewrite E.
Qed.

Lemma count_id_delete_other i j coll :
  j <> i ->
  User.count_id j (User.findOneAndDelete i coll) = User.count_id j coll.
Proof.
  intros Hne. unfold User.count_id.
  induction coll as [|u coll IH]; simpl; [reflexivity|].
  destruct (User.has_id i u) eqn:E; simpl.
  - unfold User.has_id in *. apply String.eqb_eq in E.
    destruct (String.eqb_spec (User.clerkUserId u) j) as [E' | _];
      [congruence | reflexivity].
  - destruct (User.has_id j u); simpl; now rewrite IH.
Qed.

Lemma findOneAndDelete_incl i coll u :
  In u (User.findOneAndDelete i coll) -> In u coll.
Proof.
  induction coll as [|x coll IH]; simpl; [auto|].
  destruct (User.has_id i x); simpl.
  - now right.
  - intros [H | H]; [now left | right; now apply IH].
Qed.

Lemma findOneAndDelete_unique i coll :
  unique_clerk_ids coll -> unique_clerk_ids (User.findOneAndDelete i coll).
Proof.
  unfold unique_clerk_ids.
  induction coll as [|x coll IH]; simpl; [auto|].
  intros H. inversion H as [|? ? Hnot Hnd]; subst.
  destruct (User.has_id i x); simpl; [exact Hnd|].
  constructor; [|now apply IH].
  intros Hin. apply Hnot. apply in_map_iff in Hin.
  destruct Hin as [u [E Hu]]. apply in_map_iff. exists u.
  split; [exact E | now apply (findOneAndDelete_incl i)].
Qed.

Lemma in_ids_existsb i coll :
  In i (map User.clerkUserId coll) -> existsb (User.has_id i) coll = true.
Proof.
  intros H. apply in_map_iff in H. destruct H as [u [E Hu]].
  apply existsb_exists. exists u. split; [exact Hu|].
  unfold User.has_id. rewrite E. apply String.eqb_refl.
Qed.

Lemma append_unique coll u :
  unique_clerk_ids coll ->
  existsb (User.has_id (User.clerkUserId u)) coll = false ->
  unique_clerk_ids (coll ++ [u]).
Proof.
  unfold unique_clerk_ids. intros U H. rewrite map_app. simpl.
  apply NoDup_rev in U. rewrite <- (rev_involutive (_ ++ _)).
  apply NoDup_rev. rewrite rev_app_distr. simpl.
  constructor; [|exact U].
  rewrite <- in_rev. intros Hin. apply in_ids_existsb in Hin. congruence.
Qed.

(** A [user.deleted] event: the first user with the identifier goes. *)
Lemma webhooks_deleted body d u :
  Webhook.type body = Some "user.deleted" ->
  Webhook.data body = Some u ->
  webhooks body d
  = (match Webhook.id u with
     | Some i => {| articles := articles d;
                    users := User.findOneAndDelete i (users d);
                    nextId := nextId d |}
     | None => d
     end,
     inr {| status := 200;
            json := success_message true "User deleted successfully" |}).
Proof.
  intros Ht Hd.
  unfold webhooks, try_catch, bind, defined, User_findOneAndDelete.
  rewrite Ht, Hd. simpl.
  destruct (Webhook.id u); reflexivity.
Qed.

(** Everything the handler can do, case by case. *)
Lemma webhooks_effect body d :
  (exists r, webhooks body d = (d, inr r) /\
             (status r = 200 \/ status r = 400 \/ status r = 500)) \/
  (exists doc,
      existsb (User.has_id (User.clerkUserId doc)) (users d) = false /\
      webhooks body d
      = ({| articles := articles d; users := users d ++ [doc];
            nextId := N.succ (nextId d) |},
         inr {| status := 200;
                json := success_message true "User created successfully" |})) \/
  (exists i,
      webhooks body d
      = ({| articles := articles d;
            users := User.findOneAndDelete i (users d);
            nextId := nextId d |},
         inr {| status := 200;
                json := success_message true "User deleted successfully" |})).
Proof.
  unfold webhooks, try_catch, bind, defined, User_findOneAndDelete.
  destruct (is_string (Webhook.type body) "user.created").
  - destruct (Webhook.data body) as [u|]; simpl;
      [|left; eexists; split; [reflexivity | simpl; auto]].
    destruct (Webhook.email_addresses u) as [l|]; simpl;
      [|left; eexists; split; [reflexivity | simpl; auto]].
    destruct (Webhook.id u) as [i|]; simpl;
      [|left; eexists; split; [reflexivity | simpl; auto]].
    destruct (i =? ""); simpl;
      [left; eexists; split; [reflexivity | simpl; auto]|].
    destruct (existsb (User.has_id i) (users d)) eqn:Hex; simpl;
      [left; eexists; split; [reflexivity | simpl; auto]|].
    right. left. eexists. split; [|reflexivity]. exact Hex.
  - destruct (is_string (Webhook.type body) "user.deleted");
      [|left; eexists; split; [reflexivity | simpl; auto]].
    destruct (Webhook.data body) as [u|]; simpl;
      [|left; eexists; split; [reflexivity | simpl; auto]].
    destruct (Webhook.id u) as [i|]; simpl.
    + right. right. now exists i.
    + left. eexists. split; [reflexivity | simpl; auto].
Qed.

(** X7. A [user.deleted] event for an identifier no user has, or without
    an identifier, is answered with 200 and changes nothing. *)
Theorem user_deleted_absent_is_success :
  forall (body : Webhook.body) (d : Db) (u : Webhook.user_data),
    Webhook.type body = Some "user.deleted" ->
    Webhook.data body = Some u ->
    (forall i, Webhook.id u = Some i ->
               existsb (User.has_id i) (users d) = false) ->
    webhooks body d
    = (d, inr {| status := 200;
                 json := success_message true "User deleted successfully" |}).
Proof.
  intros body d u Ht Hd Habs.
  rewrite (webhooks_deleted body d u Ht Hd).
  destruct (Webhook.id u) as [i|]; [|reflexivity].
  rewrite (findOneAndDelete_absent i (users d) (Habs i eq_refl)).
  now rewrite Db_eta.
Qed.

Lemma user_deleted_absent_is_success_witness :
  webhooks (Sample.user_deleted (Some "u404")) Sample.liked
  = (Sample.liked,
     inr {| status := 200;
            json := success_message true "User deleted successfully" |}).
Proof.
  apply (user_deleted_absent_is_success (Sample.user_deleted (Some "u404"))
           Sample.liked
           {| Webhook.id := Some "u404"; Webhook.first_name := None;
              Webhook.last_name := None; Webhook.email_addresses := None |}).
  - reflexivity.
  - reflexivity.
  - intros i H. reflexivity.
Defined.

(** X8. Creation followed by deletion is a round trip on the users: when
    a [user.created] event has been answered with 200, a [user.deleted]
    event for the same identifier is answered with 200 and leaves the
    users, and the articles, as they were before the creation. *)
Theorem user_created_then_deleted :
  forall (created deleted : Webhook.body) (d d1 : Db) (r1 : Response)
         (u1 u2 : Webhook.user_data) (i : string),
    Webhook.type created = Some "user.created" ->
    Webhook.data created = Some u1 ->
    Webhook.id u1 = Some i ->
    webhooks created d = (d1, inr r1) ->
    status r1 = 200 ->
    Webhook.type deleted = Some "user.deleted" ->
    Webhook.data deleted = Some u2 ->
    Webhook.id u2 = Some i ->
    exists d2,
      webhooks deleted d1
      = (d2, inr {| status := 200;
                    json := success_message true "User deleted successfully" |}) /\
      users d2 = users d /\ articles d2 = articles d.
Proof.
  intros created deleted d d1 r1 u1 u2 i T1 D1 I1 W1 S1 T2 D2 I2.
  assert (is_string (Webhook.type created) "user.created" = true) as T1'
    by now rewrite T1.
  destruct (webhooks_created_inv created d d1 r1 T1' W1 S1)
    as [u [l [j [Hd [Hl [Hj [Hne [Hex Hu]]]]]]]].
  assert (u = u1) by congruence. subst u.
  assert (j = i) by congruence. subst j.
  rewrite (webhooks_deleted deleted d1 u2 T2 D2), I2.
  eexists. split; [reflexivity|]. simpl. split.
  - rewrite Hu. apply findOneAndDelete_last; [exact Hex|].
    unfold User.has_id. simpl. apply String.eqb_refl.
  - pose proof (webhooks_created created d u1 l i T1' D1 Hl I1 Hne Hex) as W.
    rewrite W1 in W. now injection W as ->.
Qed.

Lemma user_created_then_deleted_witness :
  exists d2,
    webhooks (Sample.user_deleted (Some "u1"))
      (fst (webhooks (Sample.user_created (Some "u1") (Some []))
              Sample.liked))
    = (d2, inr {| status := 200;
                  json := success_message true "User deleted successfully" |}) /\
    users d2 = users Sample.liked /\ articles d2 = articles Sample.liked.
Proof.
  apply (user_created_then_deleted
           (Sample.user_created (Some "u1") (Some []))
           (Sample.user_deleted (Some "u1")) Sample.liked _
           {| status := 200;
              json := success_message true "User created successfully" |}
           {| Webhook.id := Some "u1"; Webhook.first_name := Some "A";
              Webhook.last_name := Some "B";
              Webhook.email_addresses := Some [] |}
           {| Webhook.id := Some "u1"; Webhook.first_name := None;
              Webhook.last_name := None; Webhook.email_addresses := None |}
           "u1"); reflexivity.
Defined.

(** X9. A [user.deleted] event removes one user with the identifier, if
    there is one, and no other: the number of users with that identifier
    goes down by one (staying at zero), the number of users with any
    other identifier and the articles are unchanged. *)
Theorem user_deleted_removes_one :
  forall (body : Webhook.body) (d : Db) (u : Webhook.user_data) (i : string),
    Webhook.type body = Some "user.deleted" ->
    Webhook.data body = Some u ->
    Webhook.id u = Some i ->
    exists d',
      webhooks body d
      = (d', inr {| status := 200;
                    json := success_message true "User deleted successfully" |}) /\
      User.count_id i (users d') = pred (User.count_id i (users d)) /\
      (forall j, j <> i ->
                 User.count_id j (users d') = User.count_id j (users d)) /\
      articles d' = articles d.
Proof.
  intros body d u i Ht Hd Hi.
  rewrite (webhooks_deleted body d u Ht Hd), Hi.
  eexists. split; [reflexivity|]. simpl. split; [|split].
  - apply count_id_delete.
  - intros j Hj. now apply count_id_delete_other.
  - reflexivity.
Qed.

Lemma user_deleted_removes_one_witness :
  let d1 := fst (webhooks (Sample.user_created (Some "u1") (Some []))
                   Sample.empty) in
  exists d',
    webhooks (Sample.user_deleted (Some "u1")) d1
    = (d', inr {| status := 200;
                  json := success_message true "User deleted successfully" |}) /\
    User.count_id "u1" (users d') = pred (User.count_id "u1" (users d1)) /\
    (forall j, j <> "u1" ->
               User.count_id j (users d') = User.count_id j (users d1)) /\
    articles d' = articles d1.
Proof.
  intros d1.
  apply (user_deleted_removes_one (Sample.user_deleted (Some "u1")) d1
           {| Webhook.id := Some "u1"; Webhook.first_name := None;
              Webhook.last_name := None; Webhook.email_addresses := None |}
           "u1"); reflexivity.
Defined.

(** X10. Requests the webhook turns down with 400, writing nothing: an
    event whose type is neither [user.created] nor [user.deleted], and a
    [user.created] event that has its address list but no identifier, or
    an empty one. *)
Theorem webhooks_bad_requests :
  forall (body : Webhook.body) (d : Db),
    (is_string (Webhook.type body) "user.created" = false ->
     is_string (Webhook.type body) "user.deleted" = false ->
     webhooks body d
     = (d, inr {| status := 400;
                  json := success_message false "Unknown event type" |})) /\
    (forall u l,
        Webhook.type body = Some "user.created" ->
        Webhook.data body = Some u ->
        Webhook.email_addresses u = Some l ->
        truthy (Webhook.id u) = false ->
        webhooks body d
        = (d, inr {| status := 400;
                     json := success_message false "clerkUserId is required" |})).
Proof.
  intros body d. split.
  - intros H1 H2. unfold webhooks, try_catch, bind. now rewrite H1, H2.
  - intros u l Ht Hd Hl Hid.
    unfold webhooks, try_catch, bind, defined. rewrite Ht, Hd. simpl.
    rewrite Hl. simpl. now rewrite Hid.
Qed.

Lemma webhooks_bad_requests_witness :
  webhooks {| Webhook.type := Some "user.updated"; Webhook.data := None |}
    Sample.liked
  = (Sample.liked,
     inr {| status := 400;
            json := success_message false "Unknown event type" |}) /\
  webhooks (Sample.user_created (Some "") (Some [])) Sample.liked
  = (Sample.liked,
     inr {| status := 400;
            json := success_message false "clerkUserId is required" |}).
Proof.
  split.
  - apply (webhooks_bad_requests
             {| Webhook.type := Some "user.updated"; Webhook.data := None |}
             Sample.liked); reflexivity.
  - apply (proj2 (webhooks_bad_requests
                    (Sample.user_created (Some "") (Some [])) Sample.liked)
             {| Webhook.id := Some ""; Webhook.first_name := Some "A";
                Webhook.last_name := Some "B";
                Webhook.email_addresses := Some [] |} []); reflexivity.
Defined.

(** X11. The webhook always answers: no exception leaves the handler, the
    status is 200, 400 or 500, the articles are never touched, and an
    event that is not answered with 200 writes nothing at all. *)
Theorem webhooks_always_answers :
  forall (body : Webhook.body) (d : Db),
    exists d' r,
      webhooks body d = (d', inr r) /\
      (status r = 200 \/ status r = 400 \/ status r = 500) /\
      articles d' = articles d /\
      (status r <> 200 -> d' = d).
Proof.
  intros body d.
  destruct (webhooks_effect body d) as [[r [E S]] | [[doc [_ E]] | [i E]]];
    rewrite E; eexists; eexists; (split; [reflexivity|]); simpl.
  - repeat split; auto.
  - repeat split; auto. intros H. now elim H.
  - repeat split; auto. intros H. now elim H.
Qed.

(** X12. The webhook keeps the user identifiers unique: from users
    without a duplicate [clerkUserId] it leaves users without one. *)
Theorem webhooks_keeps_ids_unique :
  forall (body : Webhook.body) (d : Db),
    unique_clerk_ids (users d) ->
    unique_clerk_ids (users (fst (webhooks body d))).
Proof.
  intros body d U.
  destruct (webhooks_effect body d) as [[r [E S]] | [[doc [Hex E]] | [i E]]];
    rewrite E; simpl.
  - exact U.
  - now apply append_unique.
  - now apply findOneAndDelete_unique.
Qed.

Lemma webhooks_keeps_ids_unique_witness :
  unique_clerk_ids
    (users (fst (webhooks (Sample.user_created (Some "u1") (Some []))
                   Sample.empty))).
Proof.
  apply (webhooks_keeps_ids_unique
           (Sample.user_created (Some "u1") (Some [])) Sample.empty).
  constructor.
Defined.

(** ** Likes: failures, frame and invariants *)

Lemma updateLikes_idem i l coll :
  Article.updateLikes i l (Article.updateLikes i l coll)
  = Article.updateLikes i l coll.
Proof.
  induction coll as [|x coll IH]; simpl; [reflexivity|].
  destruct (Article._id x =? i)%N eqn:E; simpl; rewrite E.
  - reflexivity.
  - now rewrite IH.
Qed.

Lemma findById_updateLikes_other i j l coll :
  j <> i ->
  Article.findById j (Article.updateLikes i l coll) = Article.findById j coll.
Proof.
  intros Hne. unfold Article.findById.
  induction coll as [|x coll IH]; simpl; [reflexivity|].
  destruct (Article._id x =? i)%N eqn:E; simpl.
  - apply N.eqb_eq in E. rewrite E.
    destruct (N.eqb_spec i j) as [E' | _]; [congruence | reflexivity].
  - destruct (Article._id x =? j)%N; [reflexivity | exact IH].
Qed.

Lemma same_but_likes_refl a : same_but_likes a a.
Proof. unfold same_but_likes. now repeat split. Qed.

(** The save of likes leaves every article what it was, likes apart. *)
Lemma updateLikes_same_but_likes i l coll :
  Forall2 same_but_likes coll (Article.updateLikes i l coll).
Proof.
  induction coll as [|x coll IH]; simpl; [constructor|].
  destruct (Article._id x =? i)%N.
  - constructor.
    + unfold same_but_likes. simpl. now repeat split.
    + clear IH. induction coll as [|y coll IH]; constructor;
        [apply same_but_likes_refl | exact IH].
  - constructor; [apply same_but_likes_refl | exact IH].
Qed.

Lemma differ_in_likes_only_refl d : differ_in_likes_only d d.
Proof.
  unfold differ_in_likes_only. split; [|now split].
  induction (articles d) as [|x l IH]; constructor;
    [apply same_but_likes_refl | exact IH].
Qed.

Lemma in_updateLikes i l coll a a' :
  Article.findById i coll = Some a ->
  In a' (Article.updateLikes i l coll) ->
  In a' coll \/ a' = Article.with_likes a l.
Proof.
  unfold Article.findById.
  induction coll as [|x coll IH]; simpl; [discriminate|].
  destruct (Article._id x =? i)%N; simpl.
  - intros H. injection H as <-. intros [H | H]; [now right | left; now right].
  - intros Hf [H | H]; [left; now left|].
    destruct (IH Hf H) as [H' | H']; [left; now right | now right].
Qed.

Lemma updateLikes_in i l coll a :
  Article.findById i coll = Some a ->
  In (Article.with_likes a l) (Article.updateLikes i l coll).
Proof.
  unfold Article.findById.
  induction coll as [|x coll IH]; simpl; [discriminate|].
  destruct (Article._id x =? i)%N; simpl.
  - intros H. injection H as <-. now left.
  - intros H. right. now apply IH.
Qed.

Lemma filter_idem {A} (f : A -> bool) (l : list A) :
  filter f (filter f l) = filter f l.
Proof.
  induction l as [|x l IH]; simpl; [reflexivity|].
  destruct (f x) eqn:E; simpl; [rewrite E; now f_equal | exact IH].
Qed.

Lemma null_like_dec (likes : list (option ObjectId)) :
  {In None likes} + {~ In None likes}.
Proof. apply in_dec. decide equality. apply N.eq_dec. Qed.

Section LikesMore.

Context {P : Platform}.

Lemma like_bad_id articleId userId d :
  castObjectId articleId = None ->
  like articleId userId d
  = (d, inr {| status := 500; json := message "Failed to like article" |}).
Proof.
  intros Hc. unfold like, try_catch, bind, Article_findById.
  now rewrite Hc.
Qed.

Lemma unlike_bad_id articleId userId d :
  castObjectId articleId = None ->
  unlike articleId userId d
  = (d, inr {| status := 500; json := message "Failed to unlike article" |}).
Proof.
  intros Hc. unfold unlike, try_catch, bind, Article_findById.
  now rewrite Hc.
Qed.

Lemma like_not_found articleId userId d i :
  castObjectId articleId = Some i ->
  Article.findById i (articles d) = None ->
  like articleId userId d
  = (d, inr {| status := 404; json := message "Article not found" |}).
Proof.
  intros Hc Hf. unfold like, try_catch, bind, Article_findById, gets.
  now rewrite Hc, Hf.
Qed.

Lemma unlike_not_found articleId userId d i :
  castObjectId articleId = Some i ->
  Article.findById i (articles d) = None ->
  unlike articleId userId d
  = (d, inr {| status := 404; json := message "Article not found" |}).
Proof.
  intros Hc Hf. unfold unlike, try_catch, bind, Article_findById, gets.
  now rewrite Hc, Hf.
Qed.

(** What [like] does to the database: nothing, or one save of the likes
    of the article it found, with one entry appended: the identifier the
    user id is cast to, or null when there is no user id. *)
Lemma like_effect articleId userId d :
  fst (like articleId userId d) = d \/
  exists i a entry,
    Article.findById i (articles d) = Some a /\
    includes userId (Article.likes a) = false /\
    match userId with
    | Some s => exists o, castObjectId s = Some o /\ entry = Some o
    | None => entry = None
    end /\
    fst (like articleId userId d)
    = {| articles :=
           Article.updateLikes i (Article.likes a ++ [entry]) (articles d);
         users := users d;
         nextId := nextId d |}.
Proof.
  destruct (castObjectId articleId) as [i|] eqn:Hc;
    [|left; now rewrite like_bad_id].
  destruct (Article.findById i (articles d)) as [a|] eqn:Hf;
    [|left; now rewrite (like_not_found articleId userId d i)].
  destruct (includes userId (Article.likes a)) eqn:Hin;
    [left; now rewrite (like_included articleId userId d i a)|].
  destruct userId as [s|].
  - destruct (castObjectId s) as [o|] eqn:Ho;
      [|left; now rewrite (like_refused articleId s d i a)].
    right. exists i, a, (Some o).
    rewrite (like_appends articleId s d i a o Hc Hf Hin Ho).
    repeat split; auto. now exists o.
  - right. exists i, a, None.
    rewrite (like_appends_null articleId d i a Hc Hf Hin).
    repeat split; auto.
Qed.

(** What [unlike] does to the database: nothing, or one save of the
    filtered likes of the article it found. *)
Lemma unlike_effect articleId userId d :
  fst (unlike articleId userId d) = d \/
  exists i a,
    Article.findById i (articles d) = Some a /\
    fst (unlike articleId userId d)
    = {| articles :=
           Article.updateLikes i
             (filter (fun id => negb (loosely_equal userId id))
                (Article.likes a))
             (articles d);
         users := users d;
         nextId := nextId d |}.
Proof.
  destruct (castObjectId articleId) as [i|] eqn:Hc;
    [|left; now rewrite unlike_bad_id].
  destruct (Article.findById i (articles d)) as [a|] eqn:Hf;
    [|left; now rewrite (unlike_not_found articleId userId d i)].
  destruct (null_like_dec (Article.likes a))
    as [Hn | Hn].
  - left. now rewrite (unlike_null articleId userId d i a).
  - right. exists i, a.
    now rewrite (unlike_filters articleId userId d i a).
Qed.

(** Taking likes out leaves the renderings of the others distinct. *)
Lemma filter_keeps_distinct (keep : option ObjectId -> bool) likes :
  NoDup (map (option_map toString) likes) ->
  NoDup (map (option_map toString) (filter keep likes)).
Proof.
  induction likes as [|o likes IH]; simpl; intros D; [exact D|].
  apply NoDup_cons_iff in D. destruct D as [Hfresh D].
  destruct (keep o); simpl; [|now apply IH].
  apply NoDup_cons_iff. split; [|now apply IH].
  intros Hin. apply Hfresh. apply in_map_iff in Hin.
  destruct Hin as [o' [E Ho']]. apply filter_In in Ho'.
  apply in_map_iff. exists o'. tauto.
Qed.

(** A value the likes do not include is the rendering of none of their
    entries. *)
Lemma not_included_not_in userId likes :
  includes userId likes = false ->
  ~ In userId (map (option_map toString) likes).
Proof.
  unfold includes. intros H Hin. apply in_map_iff in Hin.
  destruct Hin as [e [E He]].
  assert (existsb (loosely_equal userId) likes = true) as T.
  { apply existsb_exists. exists e. split; [exact He|].
    destruct e as [o|]; simpl in E; subst userId; simpl;
      [apply String.eqb_refl | reflexivity]. }
  congruence.
Qed.


End LikesMore.

(** X13. Like and unlike requests that fail, all without a write: an
    article id that is no identifier is answered with 500, an identifier
    no article has with 404, and a like whose user id is no identifier
    (and which the likes do not include) with 500. *)
Theorem like_unlike_failures :
  forall (P : Platform) (articleId : string) (userId : option string)
         (d : Db),
    (castObjectId articleId = None ->
     like articleId userId d
     = (d, inr {| status := 500; json := message "Failed to like article" |}) /\
     unlike articleId userId d
     = (d, inr {| status := 500;
                  json := message "Failed to unlike article" |})) /\
    (forall i,
        castObjectId articleId = Some i ->
        Article.findById i (articles d) = None ->
        like articleId userId d
        = (d, inr {| status := 404; json := message "Article not found" |}) /\
        unlike articleId userId d
        = (d, inr {| status := 404; json := message "Article not found" |})) /\
    (forall i a u,
        castObjectId articleId = Some i ->
        Article.findById i (articles d) = Some a ->
        userId = Some u ->
        includes userId (Article.likes a) = false ->
        castObjectId u = None ->
        like articleId userId d
        = (d, inr {| status := 500; json := message "Failed to like article" |})).
Proof.
  intros P articleId userId d. split; [|split].
  - intros Hc. split; [now apply like_bad_id | now apply unlike_bad_id].
  - intros i Hc Hf.
    split; [now apply (like_not_found articleId userId d i)
           | now apply (unlike_not_found articleId userId d i)].
  - intros i a u Hc Hf -> Hin Ho.
    now apply (like_refused articleId u d i a).
Qed.

Lemma like_unlike_failures_witness :
  let P := Sample.platform 0 in
  like "article-1" (Some Sample.user7) Sample.liked
  = (Sample.liked,
     inr {| status := 500; json := message "Failed to like article" |}) /\
  unlike "000000000000000000000002" (Some Sample.user7) Sample.liked
  = (Sample.liked,
     inr {| status := 404; json := message "Article not found" |}) /\
  like Sample.article1 (Some "user_2abc") Sample.liked
  = (Sample.liked,
     inr {| status := 500; json := message "Failed to like article" |}).
Proof.
  intros P. split; [|split].
  - apply (like_unlike_failures P "article-1" (Some Sample.user7)
             Sample.liked).
    reflexivity.
  - apply (proj1 (proj2 (like_unlike_failures P "000000000000000000000002"
                           (Some Sample.user7) Sample.liked)) 2%N);
      reflexivity.
  - apply (proj2 (proj2 (like_unlike_failures P Sample.article1
                           (Some "user_2abc") Sample.liked)) 1%N
             (Sample.stored 1%N "Dzongkhag news" "general" None [7%N])
             "user_2abc");
      reflexivity.
Defined.

(** X14. A like by a user the article's likes do not include, whose id
    is an identifier, adds exactly that one like: the answer is 200 with
    the count raised by one, the stored article has the cast identifier
    appended to its likes, and every other article, looked up by its
    identifier, is as before; so are the users. *)
Theorem like_adds_one :
  forall (P : Platform) (articleId userId : string) (d : Db)
         (i o : ObjectId) (a : Article.doc),
    castObjectId articleId = Some i ->
    Article.findById i (articles d) = Some a ->
    includes (Some userId) (Article.likes a) = false ->
    castObjectId userId = Some o ->
    exists d',
      like articleId (Some userId) d
      = (d', inr {| status := 200;
                    json := likesCount (S (length (Article.likes a))) |}) /\
      Article.findById i (articles d')
      = Some (Article.with_likes a (Article.likes a ++ [Some o])) /\
      (forall j, j <> i ->
                 Article.findById j (articles d')
                 = Article.findById j (articles d)) /\
      users d' = users d.
Proof.
  intros P articleId userId d i o a Hc Hf Hin Ho.
  rewrite (like_appends articleId userId d i a o Hc Hf Hin Ho).
  eexists. split.
  - rewrite length_app. simpl. now rewrite Nat.add_1_r.
  - simpl. split; [now apply findById_updateLikes|].
    split; [|reflexivity].
    intros j Hj. now apply findById_updateLikes_other.
Qed.

Lemma like_adds_one_witness :
  let P := Sample.platform 0 in
  exists d',
    like Sample.article1 (Some Sample.user9) Sample.liked
    = (d', inr {| status := 200; json := likesCount 2 |}) /\
    Article.findById 1%N (articles d')
    = Some (Sample.stored 1%N "Dzongkhag news" "general" None [7%N; 9%N]) /\
    (forall j, j <> 1%N ->
               Article.findById j (articles d')
               = Article.findById j (articles Sample.liked)) /\
    users d' = users Sample.liked.
Proof.
  intros P.
  apply (like_adds_one P Sample.article1 Sample.user9 Sample.liked 1%N 9%N
           (Sample.stored 1%N "Dzongkhag news" "general" None [7%N]));
    reflexivity.
Defined.

(** X15. [unlike] is idempotent, for every request: a second identical
    call gives the answer of the first and leaves the database the first
    one left. *)
Theorem unlike_is_idempotent :
  forall (P : Platform) (articleId : string) (userId : option string)
         (d : Db),
    unlike articleId userId (fst (unlike articleId userId d))
    = unlike articleId userId d.
Proof.
  intros P articleId userId d.
  destruct (castObjectId articleId) as [i|] eqn:Hc.
  2:{ pose proof (unlike_bad_id articleId userId d Hc) as E.
      rewrite E. exact E. }
  destruct (Article.findById i (articles d)) as [a|] eqn:Hf.
  2:{ pose proof (unlike_not_found articleId userId d i Hc Hf) as E.
      rewrite E. exact E. }
  destruct (null_like_dec (Article.likes a))
    as [Hn | Hn].
  { pose proof (unlike_null articleId userId d i a Hc Hf Hn) as E.
    rewrite E. exact E. }
  rewrite (unlike_filters articleId userId d i a Hc Hf Hn). simpl.
  set (l := filter (fun id => negb (loosely_equal userId id))
              (Article.likes a)).
  rewrite (unlike_filters articleId userId _ i (Article.with_likes a l) Hc).
  - simpl. unfold l. now rewrite filter_idem, updateLikes_idem.
  - simpl. now apply findById_updateLikes.
  - simpl. unfold l. intros H. apply filter_In in H. tauto.
Qed.



(** X17. Like and unlike change likes and nothing else: after either
    call, whatever its outcome, the stored articles are the ones stored
    before, one by one in the same order, with every field other than the
    likes unchanged (identifier, title, description, url, publication
    time, source, category and image); the users and the source of
    identifiers are as before. *)
Theorem like_unlike_change_only_likes :
  forall (P : Platform) (articleId : string) (userId : option string)
         (d : Db),
    differ_in_likes_only d (fst (like articleId userId d)) /\
    differ_in_likes_only d (fst (unlike articleId userId d)).
Proof.
  intros P articleId userId d. split.
  - destruct (like_effect articleId userId d)
      as [-> | [i [a [e [_ [_ [_ ->]]]]]]];
      [apply differ_in_likes_only_refl|].
    unfold differ_in_likes_only. simpl.
    split; [apply updateLikes_same_but_likes | now split].
  - destruct (unlike_effect articleId userId d) as [-> | [i [a [_ ->]]]];
      [apply differ_in_likes_only_refl|].
    unfold differ_in_likes_only. simpl.
    split; [apply updateLikes_same_but_likes | now split].
Qed.

(** X18. No article comes to be liked twice by one user.  If in every
    stored article the likes have pairwise different renderings, they
    still have after an unlike, and after a like whose user id is the
    rendering of the identifier it is cast to. *)
Theorem likes_stay_distinct :
  forall (P : Platform) (articleId : string) (userId : option string)
         (d : Db),
    likes_distinct d ->
    likes_distinct (fst (unlike articleId userId d)) /\
    ((forall u o, userId = Some u -> castObjectId u = Some o ->
                  toString o = u) ->
     likes_distinct (fst (like articleId userId d))).
Proof.
  intros P articleId userId d D. split.
  - destruct (unlike_effect articleId userId d) as [-> | [i [a [Hf ->]]]];
      [exact D|].
    intros a' Hin. simpl in Hin.
    destruct (in_updateLikes i _ _ a a' Hf Hin) as [H | ->];
      [now apply D|].
    simpl. apply filter_keeps_distinct. apply D.
    apply find_some in Hf. tauto.
  - intros Hcan.
    destruct (like_effect articleId userId d)
      as [-> | [i [a [e [Hf [Hin [He ->]]]]]]]; [exact D|].
    intros a' Ha'. simpl in Ha'.
    destruct (in_updateLikes i _ _ a a' Hf Ha') as [H | ->];
      [now apply D|].
    simpl. rewrite map_app. simpl.
    assert (NoDup (map (option_map toString) (Article.likes a))) as Nd.
    { apply D. apply find_some in Hf. tauto. }
    apply NoDup_rev in Nd. rewrite <- (rev_involutive (_ ++ _)).
    apply NoDup_rev. rewrite rev_app_distr. simpl.
    constructor; [|exact Nd].
    rewrite <- in_rev.
    assert (option_map toString e = userId) as ->;
      [|now apply not_included_not_in].
    destruct userId as [u|].
    + destruct He as [o [Ho ->]]. simpl. now rewrite (Hcan u o eq_refl Ho).
    + now subst e.
Qed.

Lemma likes_stay_distinct_witness :
  let P := Sample.platform 0 in
  likes_distinct
    (fst (unlike Sample.article1 (Some Sample.user7) Sample.liked)) /\
  likes_distinct
    (fst (like Sample.article1 (Some Sample.user9) Sample.liked)).
Proof.
  intros P.
  assert (likes_distinct Sample.liked) as D.
  { intros a [<- | []]. simpl. constructor; [intros [] | constructor]. }
  split.
  - apply (likes_stay_distinct P Sample.article1 (Some Sample.user7)
             Sample.liked D).
  - apply (likes_stay_distinct P Sample.article1 (Some Sample.user9)
             Sample.liked D).
    intros u o E H. injection E as <-.
    vm_compute in H. injection H as <-. reflexivity.
Defined.

(** X19. A like shows in the headlines.  After a like of a general
    article by a user its likes did not include, whose id is an
    identifier, the answer of [GET /headlines] has that article with the
    new like and a [likeCount] one above the old number of likes. *)
Theorem like_shows_in_headlines :
  forall (P : Platform) (articleId userId : string) (d : Db)
         (i o : ObjectId) (a : Article.doc),
    castObjectId articleId = Some i ->
    Article.findById i (articles d) = Some a ->
    Article.category a = "general" ->
    includes (Some userId) (Article.likes a) = false ->
    castObjectId userId = Some o ->
    exists items,
      headlines (fst (like articleId (Some userId) d))
      = (fst (like articleId (Some userId) d),
         inr {| status := 200; json := headline_list items |}) /\
      In {| article := Article.with_likes a (Article.likes a ++ [Some o]);
            likeCount := S (length (Article.likes a)) |} items.
Proof.
  intros P articleId userId d i o a Hc Hf Hg Hin Ho.
  rewrite (like_appends articleId userId d i a o Hc Hf Hin Ho). simpl.
  eexists. split; [reflexivity|].
  apply in_map_iff.
  exists (Article.with_likes a (Article.likes a ++ [Some o])). split.
  - simpl. rewrite length_app. simpl. now rewrite Nat.add_1_r.
  - unfold Article_find_category, gets. simpl.
    unfold Article.findByCategory. apply filter_In. split.
    + now apply updateLikes_in.
    + simpl. rewrite Hg. reflexivity.
Qed.

Lemma like_shows_in_headlines_witness :
  let P := Sample.platform 0 in
  exists items,
    headlines (fst (like Sample.article1 (Some Sample.user9) Sample.liked))
    = (fst (like Sample.article1 (Some Sample.user9) Sample.liked),
       inr {| status := 200; json := headline_list items |}) /\
    In {| article :=
            Sample.stored 1%N "Dzongkhag news" "general" None [7%N; 9%N];
          likeCount := 2 |} items.
Proof.
  intros P.
  apply (like_shows_in_headlines P Sample.article1 Sample.user9 Sample.liked
           1%N 9%N
           (Sample.stored 1%N "Dzongkhag news" "general" None [7%N]));
    reflexivity.
Defined.

(** ** Search: refusals, the day searched, narrowing *)

(** A filter that decides what is wanted keeps what is wanted. *)
Lemma Kept_filter (wanted : Article.doc -> Prop) keep l :
  (forall a, keep a = true <-> wanted a) ->
  Kept wanted l (filter keep l).
Proof.
  intros H. induction l as [|a l IH]; simpl; [constructor|].
  destruct (keep a) eqn:E.
  - apply Kept_keep; [now apply H | exact IH].
  - apply Kept_drop; [|exact IH].
    intros W. apply H in W. congruence.
Qed.

Section SearchMore.

Context {P : Platform}.

(** The guard of the route lets through what a parameter provides. *)
Lemma given_provided x : given x = provided x.
Proof. destruct x as [[|c s]|]; reflexivity. Qed.

Lemma text_filter_accepts x field keep :
  text_filter (given x) field = inr keep ->
  forall p, given x = Some p -> regex_i p <> None.
Proof.
  unfold text_filter. intros H p E. rewrite E in H.
  destruct (regex_i p); [discriminate | discriminate H].
Qed.

Lemma date_filter_accepts q keep :
  date_filter (c_publishedAt (searchCriteria q)) = inr keep ->
  forall date, given (q_date q) = Some date ->
               exists gte lt,
                 setHours (Date_parse date) 0 0 0 0 = Some gte /\
                 setHours (Some gte) 23 59 59 999 = Some lt.
Proof.
  unfold searchCriteria. cbn [c_publishedAt]. intros H date E.
  rewrite E in H. cbv zeta in H.
  destruct (setHours (Date_parse date) 0 0 0 0) as [gte|] eqn:B1;
    [|discriminate H].
  destruct (setHours (Some gte) 23 59 59 999) as [lt|] eqn:B2;
    [|discriminate H].
  now exists gte, lt.
Qed.

Lemma both_inr f g keep :
  both f g = inr keep -> exists kf kg, f = inr kf /\ g = inr kg.
Proof.
  destruct f as [e|kf], g as [e'|kg]; simpl; try discriminate.
  intros _. now exists kf, kg.
Qed.

(** Criteria that compile are criteria that can be cast and run. *)
Lemma compile_compiles q keep :
  compile (searchCriteria q) = inr keep -> compiles q.
Proof.
  unfold compile. intros H.
  apply both_inr in H. destruct H as [k1 [r1 [H1 H]]].
  apply both_inr in H. destruct H as [k2 [r2 [H2 H]]].
  apply both_inr in H. destruct H as [k3 [k4 [H3 H4]]].
  change (c_title (searchCriteria q)) with (given (q_title q)) in H1.
  change (c_country (searchCriteria q)) with (given (q_country q)) in H2.
  change (c_category (searchCriteria q)) with (given (q_category q)) in H3.
  repeat split.
  - now apply (text_filter_accepts _ _ _ H1).
  - now apply (text_filter_accepts _ _ _ H2).
  - now apply (text_filter_accepts _ _ _ H3).
  - now apply (date_filter_accepts q k4).
Qed.

(** Without a date, criteria whose patterns the store accepts compile. *)
Lemma accepted_patterns_compile q :
  provided (q_date q) = None ->
  (forall p, provides_pattern q p -> regex_i p <> None) ->
  compiles q.
Proof.
  intros Hd Hp. unfold compiles, provides_pattern in *.
  rewrite !given_provided. repeat split.
  - intros p E. apply Hp. auto.
  - intros p E. apply Hp. auto.
  - intros p E. apply Hp. auto.
  - intros date E. congruence.
Qed.

(** Without a date, the filters test the text criteria. *)
Lemma passes_filters_text q a :
  provided (q_date q) = None ->
  passes_filters q a <-> meets_text_criteria q a.
Proof.
  intros Hd. unfold passes_filters, meets_text_criteria.
  rewrite !given_provided. split.
  - tauto.
  - intros [H1 [H2 H3]]. repeat split; auto.
    intros date E. congruence.
Qed.

(** The day of an instant begins at a midnight of the clock, not after
    the instant and less than a day before it. *)
Lemma day_start_bounds off t :
  (day_start off t <= t < day_start off t + 86400000)%Z /\
  ((day_start off t + off) mod 86400000 = 0)%Z.
Proof.
  unfold day_start.
  assert (86400000 <> 0)%Z as Hne by lia.
  pose proof (Z.div_mod (t + off) 86400000 Hne) as D.
  pose proof (Z.mod_pos_bound (t + off) 86400000 ltac:(lia)) as B.
  split; [lia|].
  replace ((t + off) / 86400000 * 86400000 - off + off)%Z
    with ((t + off) / 86400000 * 86400000)%Z by lia.
  now apply Z.mod_mul.
Qed.

Lemma asks_less_compiles q' q :
  asks_less q' q -> compiles q -> compiles q'.
Proof.
  intros [A1 [A2 [A3 A4]]] [W1 [W2 [W3 W4]]]. repeat split.
  - intros p E. destruct A1 as [N | S]; [congruence|].
    apply W1. congruence.
  - intros p E. destruct A2 as [N | S]; [congruence|].
    apply W2. congruence.
  - intros p E. destruct A3 as [N | S]; [congruence|].
    apply W3. congruence.
  - intros p E. destruct A4 as [N | S]; [congruence|].
    apply W4. congruence.
Qed.

Lemma asks_less_passes q' q a :
  asks_less q' q -> passes_filters q a -> passes_filters q' a.
Proof.
  intros [A1 [A2 [A3 A4]]] [S1 [S2 [S3 S4]]]. repeat split.
  - intros p E. destruct A1 as [N | S]; [congruence|].
    apply S1. congruence.
  - intros p E. destruct A2 as [N | S]; [congruence|].
    apply S2. congruence.
  - intros p E. destruct A3 as [N | S]; [congruence|].
    apply S3. congruence.
  - intros p E. destruct A4 as [N | S]; [congruence|].
    apply S4. congruence.
Qed.

(** Without a date, criteria that do not compile have a pattern the
    store refuses. *)
Lemma refused_has_bad_pattern q e :
  provided (q_date q) = None ->
  compile (searchCriteria q) = inl e ->
  exists p, provides_pattern q p /\ regex_i p = None.
Proof.
  intros Hd. unfold compile, searchCriteria, provides_pattern.
  cbn [c_title c_country c_category c_publishedAt].
  rewrite !given_provided, Hd. unfold text_filter.
  destruct (provided (q_title q)) as [p1|].
  - destruct (regex_i p1) eqn:R1; [|intros _; exists p1; auto].
    destruct (provided (q_country q)) as [p2|].
    + destruct (regex_i p2) eqn:R2; [|intros _; exists p2; auto].
      destruct (provided (q_category q)) as [p3|].
      * destruct (regex_i p3) eqn:R3; [|intros _; exists p3; auto].
        discriminate.
      * discriminate.
    + destruct (provided (q_category q)) as [p3|].
      * destruct (regex_i p3) eqn:R3; [|intros _; exists p3; auto].
        discriminate.
      * discriminate.
  - destruct (provided (q_country q)) as [p2|].
    + destruct (regex_i p2) eqn:R2; [|intros _; exists p2; auto].
      destruct (provided (q_category q)) as [p3|].
      * destruct (regex_i p3) eqn:R3; [|intros _; exists p3; auto].
        discriminate.
      * discriminate.
    + destruct (provided (q_category q)) as [p3|].
      * destruct (regex_i p3) eqn:R3; [|intros _; exists p3; auto].
        discriminate.
      * discriminate.
Qed.

End SearchMore.

(** X20. Search never writes, and refuses what it cannot evaluate.
    Whatever the query, the database is left as it was and the status is
    200, 404 or 500.  A provided pattern the store refuses gives 500, and
    so does a provided date that is no date; and for a query without a
    date the status is 500 only if one of its patterns is refused. *)
Theorem search_refuses_bad_criteria :
  forall (P : Platform) (q : Query) (d : Db),
    exists r,
      search q d = (d, inr r) /\
      (status r = 200 \/ status r = 404 \/ status r = 500) /\
      (forall p, provides_pattern q p -> regex_i p = None ->
                 status r = 500) /\
      (forall date, provided (q_date q) = Some date ->
                    Date_parse date = None -> status r = 500) /\
      (provided (q_date q) = None -> status r = 500 ->
       exists p, provides_pattern q p /\ regex_i p = None).
Proof.
  intros P q d.
  destruct (compile (searchCriteria q)) as [e|keep] eqn:E.
  - rewrite (search_refused q d e E). eexists. split; [reflexivity|].
    simpl. split; [auto|]. split; [auto|]. split; [auto|].
    intros Hd _. now apply (refused_has_bad_pattern q e).
  - rewrite (search_compiled q d keep E). eexists. split; [reflexivity|].
    destruct (compile_compiles q keep E) as [W1 [W2 [W3 W4]]].
    split; [destruct (filter keep (articles d)); simpl; auto|].
    split; [|split].
    + intros p [H | [H | H]] N; exfalso; rewrite <- given_provided in H.
      * now apply (W1 p H).
      * now apply (W2 p H).
      * now apply (W3 p H).
    + intros date H N. exfalso. rewrite <- given_provided in H.
      destruct (W4 date H) as [gte [lt [B _]]]. rewrite N in B.
      discriminate B.
    + intros _ S. exfalso.
      destruct (filter keep (articles d)); discriminate S.
Qed.

Lemma search_refuses_bad_criteria_witness :
  let P := Sample.platform 0 in
  exists r,
    search {| q_title := Some "("; q_country := None; q_category := None;
              q_date := None |} Sample.liked
    = (Sample.liked, inr r) /\
    status r = 500 /\
    exists p, provides_pattern
                {| q_title := Some "("; q_country := None;
                   q_category := None; q_date := None |} p /\
              regex_i p = None.
Proof.
  intros P.
  destruct (search_refuses_bad_criteria P
              {| q_title := Some "("; q_country := None; q_category := None;
                 q_date := None |} Sample.liked)
    as [r [E [_ [Hp [_ Hd]]]]].
  exists r. split; [exact E|].
  assert (status r = 500) as S.
  { apply (Hp "("); [left; reflexivity | reflexivity]. }
  split; [exact S|]. apply Hd; [reflexivity | exact S].
Defined.

(** X21. The day a date search covers, on a server whose clock keeps one
    offset from UTC.  For a date text that parses to an instant [t] at
    least a day inside the range of time values, the articles found are
    the stored ones published from [day_start off t] on and before
    [day_start off t] + 86 399 999 ms; articles without a publication
    time are never found.  That start is a local midnight, at or before
    [t] and less than a day before it: the search covers the local day on
    which the parsed instant falls, short of its last millisecond. *)
Theorem search_by_date_covers_local_day :
  forall (P : Platform) (off : Z) (date : string) (t : Z) (d : Db),
    fixed_zone P off ->
    Date_parse date = Some t ->
    date <> "" ->
    (-8640000000000000 + 86400000 <= t <= 8640000000000000 - 86400000)%Z ->
    exists found,
      search {| q_title := None; q_country := None; q_category := None;
                q_date := Some date |} d
      = (d, inr (search_answer found)) /\
      (forall a, In a found <->
                 In a (articles d) /\
                 exists p, Article.publishedAt a = Some p /\
                           (day_start off t <= p
                            < day_start off t + 86399999)%Z) /\
      (day_start off t <= t < day_start off t + 86400000)%Z /\
      ((day_start off t + off) mod 86400000 = 0)%Z.
Proof.
  intros P off date t d Z Ht Hne R.
  pose proof (day_start_bounds off t) as [B M].
  assert (is_time_value (day_start off t)) as V1
    by (unfold is_time_value; lia).
  assert (is_time_value (day_start off t + 86399999)) as V2
    by (unfold is_time_value; lia).
  destruct (search_date_range P off date t d Z Ht Hne V1 V2) as [found [E S]].
  exists found. split; [exact E|]. split; [exact S|]. now split.
Qed.

Lemma search_by_date_covers_local_day_witness :
  let P := Sample.platform 6 in
  let off := 21600000%Z in
  let t := Sample.Date_UTC 2024 1 15 0 0 0 0 in
  let d := Sample.published (Sample.Date_UTC 2024 1 14 18 0 0 0) in
  exists found,
    search {| q_title := None; q_country := None; q_category := None;
              q_date := Some "2024-01-15" |} d
    = (d, inr (search_answer found)) /\
    (forall a, In a found <->
               In a (articles d) /\
               exists p, Article.publishedAt a = Some p /\
                         (day_start off t <= p
                          < day_start off t + 86399999)%Z) /\
    (day_start off t <= t < day_start off t + 86400000)%Z /\
    ((day_start off t + off) mod 86400000 = 0)%Z.
Proof.
  intros P off t d.
  apply (search_by_date_covers_local_day P off "2024-01-15" t d).
  - intros x b. reflexivity.
  - reflexivity.
  - discriminate.
  - vm_compute. split; discriminate.
Defined.

(** On a server six hours ahead of UTC the search for 2024-01-15 begins
    at 18:00 UTC of the 14th. *)
Example search_day_six_hours_ahead :
  let P := Sample.platform 6 in
  day_start 21600000 (Sample.Date_UTC 2024 1 15 0 0 0 0)
  = Sample.Date_UTC 2024 1 14 18 0 0 0 /\
  snd (search (Sample.on_date "2024-01-15")
         (Sample.published (Sample.Date_UTC 2024 1 14 18 0 0 0)))
  = inr {| status := 200;
           json := article_list
                     (articles (Sample.published
                                  (Sample.Date_UTC 2024 1 14 18 0 0 0))) |}.
Proof. split; reflexivity. Qed.

(** X22. An empty query parameter is no criterion: a search answers a
    query as it answers the query from which the parameters with the
    empty text have been taken out. *)
Theorem search_ignores_empty_parameters :
  forall (P : Platform) (q : Query) (d : Db),
    search q d = search (without_empty q) d.
Proof.
  intros P q d. unfold search.
  assert (searchCriteria (without_empty q) = searchCriteria q) as E.
  { unfold searchCriteria, without_empty. simpl.
    destruct (q_title q) as [[|c1 s1]|], (q_country q) as [[|c2 s2]|],
      (q_category q) as [[|c3 s3]|], (q_date q) as [[|c4 s4]|];
      reflexivity. }
  now rewrite E.
Qed.

(** X23. Dropping criteria never loses results: when a search finds
    articles, a search that asks for nothing more (each of its criteria
    is one of the first search, or absent) finds them all, and possibly
    others. *)
Theorem search_with_fewer_criteria_finds_more :
  forall (P : Platform) (q q' : Query) (d : Db) (found : list Article.doc),
    asks_less q' q ->
    search q d = (d, inr {| status := 200; json := article_list found |}) ->
    exists found',
      search q' d
      = (d, inr {| status := 200; json := article_list found' |}) /\
      incl found found'.
Proof.
  intros P q q' d found L S.
  destruct (compile (searchCriteria q)) as [e|keep] eqn:E.
  - rewrite (search_refused q d e E) in S. discriminate S.
  - pose proof (compile_compiles q keep E) as W.
    destruct (compile_spec q W) as [k [Ek Sk]].
    assert (k = keep) by congruence. subst k.
    destruct (compile_spec q' (asks_less_compiles q' q L W))
      as [keep' [E' S']].
    rewrite (search_compiled q d keep E) in S.
    rewrite (search_compiled q' d keep' E').
    assert (incl (filter keep (articles d)) (filter keep' (articles d))) as I.
    { intros a Ha. apply filter_In in Ha. destruct Ha as [Hin Hk].
      apply filter_In. split; [exact Hin|].
      apply S'. apply (asks_less_passes q' q a L). now apply Sk. }
    destruct (filter keep (articles d)) as [|x l] eqn:F;
      [discriminate S|].
    simpl in S. injection S as <-.
    destruct (filter keep' (articles d)) as [|y l'] eqn:F'.
    + exfalso. apply (I x). now left.
    + eexists. split; [reflexivity | exact I].
Qed.

Lemma search_with_fewer_criteria_finds_more_witness :
  let P := Sample.platform 0 in
  let d := Sample.database
             [Sample.stored 1%N "Dzongkhag news" "general" None [];
              Sample.stored 2%N "Archery news" "sports" None []] in
  exists found',
    search {| q_title := Some "news"; q_country := None;
              q_category := None; q_date := None |} d
    = (d, inr {| status := 200; json := article_list found' |}) /\
    incl [Sample.stored 1%N "Dzongkhag news" "general" None []] found'.
Proof.
  intros P d.
  apply (search_with_fewer_criteria_finds_more P
           {| q_title := Some "news"; q_country := None;
              q_category := Some "gen"; q_date := None |}
           {| q_title := Some "news"; q_country := None;
              q_category := None; q_date := None |} d).
  - unfold asks_less. simpl. auto.
  - reflexivity.
Defined.


(** X25. Search by text is the conjunction of the provided patterns.
    For a query without a date whose patterns the store accepts, the
    results are the stored articles, once each and in stored order, whose
    title, country and category are matched by each pattern the query
    provides for them; a parameter that is absent or empty provides none,
    so a query without any finds every stored article; and the answer is
    404 when nothing is found, 200 with the results otherwise. *)
Theorem search_by_text_is_conjunction :
  forall (P : Platform) (q : Query) (d : Db),
    provided (q_date q) = None ->
    (forall p, provides_pattern q p -> regex_i p <> None) ->
    exists found,
      Kept (meets_text_criteria q) (articles d) found /\
      (found = [] ->
       search q d
       = (d, inr {| status := 404;
                    json := message "No articles found matching your query" |})) /\
      (found <> [] ->
       search q d
       = (d, inr {| status := 200; json := article_list found |})) /\
      (provided (q_title q) = None -> provided (q_country q) = None ->
       provided (q_category q) = None -> found = articles d).
Proof.
  intros P q d Hd Hp.
  destruct (compile_spec q (accepted_patterns_compile q Hd Hp))
    as [keep [E S]].
  assert (forall a, keep a = true <-> meets_text_criteria q a) as S'.
  { intros a. rewrite S. now apply passes_filters_text. }
  exists (filter keep (articles d)).
  rewrite (search_compiled q d keep E).
  split; [now apply Kept_filter|]. split; [|split].
  - intros ->. reflexivity.
  - destruct (filter keep (articles d)); [intros H; now elim H | reflexivity].
  - intros N1 N2 N3. apply filter_all. intros a. apply S'.
    unfold meets_text_criteria. rewrite N1, N2, N3.
    repeat split; discriminate.
Qed.

Lemma search_by_text_is_conjunction_witness :
  let P := Sample.platform 0 in
  let q := {| q_title := Some "NEWS"; q_country := Some "";
              q_category := Some "gen"; q_date := None |} in
  let d := Sample.database
             [Sample.stored 1%N "Dzongkhag news" "general" None [];
              Sample.stored 2%N "Archery final" "sports" None []] in
  exists found,
    Kept (meets_text_criteria q) (articles d) found /\
    (found = [] ->
     search q d
     = (d, inr {| status := 404;
                  json := message "No articles found matching your query" |})) /\
    (found <> [] ->
     search q d
     = (d, inr {| status := 200; json := article_list found |})) /\
    (provided (q_title q) = None -> provided (q_country q) = None ->
     provided (q_category q) = None -> found = articles d).
Proof.
  intros P q d.
  apply (search_by_text_is_conjunction P q d).
  - reflexivity.
  - intros p [H | [H | H]]; vm_compute in H;
      try discriminate H; injection H as <-; discriminate.
Defined.

(** ** The category routes agree *)

(** The articles of a category, as the query of the routes selects
    them. *)
Lemma findByCategory_Kept c coll :
  Kept (fun a => Article.category a = c) coll (Article.findByCategory c coll).
Proof.
  unfold Article.findByCategory. apply Kept_filter.
  intros a. apply String.eqb_eq.
Qed.

(** X24. The fixed routes are the generic route at their category, and
    the headlines are the generic route at [general] with the like counts
    added.  For every category route, the generic route asked for the
    route's category answers 200 with the stored articles whose category
    equals it, once each and in stored order; the route itself answers
    with that same list, each article paired with the size of its likes
    in the case of [/headlines]. *)
Theorem category_routes_agree :
  forall (r : CategoryRoute) (d : Db),
    exists found,
      Kept (fun a => Article.category a = route_category r)
        (articles d) found /\
      categories_route (route_category r) d
      = (d, inr {| status := 200; json := article_list found |}) /\
      serve r d
      = (d, inr {| status := 200;
                   json :=
                     match r with
                     | GET_headlines =>
                         headline_list
                           (map (fun a =>
                                   {| article := a;
                                      likeCount := length (Article.likes a) |})
                              found)
                     | _ => article_list found
                     end |}).
Proof.
  intros r d.
  exists (Article.findByCategory (route_category r) (articles d)).
  split; [apply findByCategory_Kept|]. split; [reflexivity|].
  rewrite serve_answer. destruct r; reflexivity.
Qed.
